(** * Dockge stack orchestration: a shallow embedding of [backend/stack.ts]

    The development follows the TypeScript source:
    - JavaScript string primitives used by the code ([startsWith],
      [includes], [split], [trim], [parseInt]);
    - the status classifier ([isComposeExitClean], [statusConvert],
      [getStatusList]);
    - the stack object and its world (disk, terminal registry, spawned
      processes) in a state-and-exception monad;
    - the lifecycle operations ([deploy], [delete], [forceDelete],
      [update], [save]).

    Strings are byte strings; the code only inspects ASCII characters. *)

From Stdlib Require Import ZArith Ascii String List Bool Lia.
From stdpp Require Import base option list strings gmap.

Local Open Scope string_scope.
Local Open Scope list_scope.

(** ** JavaScript string primitives *)

Module JS.

(** [s.startsWith(p)] *)
Fixpoint startsWith (p s : string) : bool :=
  match p, s with
  | EmptyString, _ => true
  | String a p', String b s' => Ascii.eqb a b && startsWith p' s'
  | String _ _, EmptyString => false
  end.

(** [s.includes(p)] *)
Fixpoint includes (p s : string) : bool :=
  startsWith p s ||
  match s with
  | EmptyString => false
  | String _ s' => includes p s'
  end.

(** [s.split(c)] for a one-character separator [c]; every call site of
    the source splits on a single character.  The result is never
    empty: a string without the separator yields itself. *)
Fixpoint split (c : ascii) (s : string) : list string :=
  match s with
  | EmptyString => [EmptyString]
  | String a s' =>
      if Ascii.eqb a c then EmptyString :: split c s'
      else match split c s' with
           | x :: xs => String a x :: xs
           | [] => [String a EmptyString]
           end
  end.

(** White space removed by [trim] (the ASCII part of the ECMAScript
    WhiteSpace and LineTerminator classes). *)
Definition is_space (a : ascii) : bool :=
  let n := nat_of_ascii a in
  Nat.eqb n 32 || (Nat.leb 9 n && Nat.leb n 13).

Fixpoint trimStart (s : string) : string :=
  match s with
  | String a s' => if is_space a then trimStart s' else s
  | EmptyString => EmptyString
  end.

Fixpoint trimEnd (s : string) : string :=
  match s with
  | EmptyString => EmptyString
  | String a s' =>
      match trimEnd s' with
      | EmptyString => if is_space a then EmptyString else String a EmptyString
      | t => String a t
      end
  end.

(** [s.trim()] *)
Definition trim (s : string) : string := trimEnd (trimStart s).

(** A JavaScript number as far as the code needs it: an integer or
    [NaN].  Values are container counts and process exit codes, far
    below 2^53, so no rounding is modelled. *)
Inductive number : Type :=
| Num (z : Z)
| NaN.

(** [a === b] on numbers: [NaN] is different from everything. *)
Definition strict_eq (a b : number) : bool :=
  match a, b with
  | Num x, Num y => Z.eqb x y
  | _, _ => false
  end.

Definition digit_value (radix : Z) (a : ascii) : option Z :=
  let n := Z.of_nat (nat_of_ascii a) in
  let v :=
    if (48 <=? n)%Z && (n <=? 57)%Z then Some (n - 48)%Z
    else if (97 <=? n)%Z && (n <=? 122)%Z then Some (n - 87)%Z
    else if (65 <=? n)%Z && (n <=? 90)%Z then Some (n - 55)%Z
    else None in
  match v with
  | Some d => if (d <? radix)%Z then Some d else None
  | None => None
  end.

(** Longest prefix of digits, accumulated left to right; [seen] records
    whether one digit was read. *)
Fixpoint parse_digits (radix : Z) (s : string) (acc : Z) (seen : bool) : number :=
  match s with
  | String a s' =>
      match digit_value radix a with
      | Some d => parse_digits radix s' (acc * radix + d)%Z true
      | None => if seen then Num acc else NaN
      end
  | EmptyString => if seen then Num acc else NaN
  end.

Definition negate (n : number) : number :=
  match n with
  | Num z => Num (- z)
  | NaN => NaN
  end.

Definition parse_unsigned (s : string) : number :=
  if startsWith "0x" s || startsWith "0X" s
  then parse_digits 16 (String.substring 2 (String.length s - 2) s) 0 false
  else parse_digits 10 s 0 false.

(** [parseInt(s)] without a radix: leading white space, an optional
    sign, an optional hexadecimal prefix, then the longest run of
    digits; [NaN] when there is none. *)
Definition parseInt (s : string) : number :=
  match trimStart s with
  | String "-" r => negate (parse_unsigned r)
  | String "+" r => parse_unsigned r
  | r => parse_unsigned r
  end.

End JS.

(** ** Data model *)

(** Modelled from the spec: the five status constants of
    [common/util-common] (the file is not part of the sources), which the
    spec lists as Unknown, CreatedFromFile, CreatedAsProject, Running and
    Exited.  They are numbers in the code; [UNKNOWN] is the one that
    [updateStatus] substitutes for a missing or falsy entry. *)
Inductive status : Type :=
| UNKNOWN
| CREATED_FILE
| CREATED_STACK
| RUNNING
| EXITED.

(** One entry of [docker compose ls --format json]. *)
Record StackJson : Type := {
  sj_Name : string;
  sj_Status : string;
  sj_ConfigFiles : string
}.

(** One line of [docker ps --format json]; of its fields the modelled
    code reads [Status] only, [Name] and [State] are kept for
    readability. *)
Record ContainerJson : Type := {
  cj_Name : string;
  cj_State : string;
  cj_Status : string
}.

(** What the code can throw or reject with. *)
Inductive exn : Type :=
| ValidationError (message : string)   (* util-server's ValidationError *)
| Error (message : string)             (* new Error(message) *)
| TypeError                            (* a method call on undefined *)
| YAMLParseError                       (* thrown by yaml.parse *)
| Rejection (reason : string)          (* a promise rejected with a string *)
| FsError (code : string).             (* a failed fs call *)

Inductive result (A : Type) : Type :=
| Ret (a : A)
| Throw (e : exn).
Arguments Ret {A} a.
Arguments Throw {A} e.

(** Node of the on-disk tree, keyed by its path. *)
Inductive node : Type :=
| File (content : string)
| Dir.

Record DeleteOptions : Type := { deleteStackFiles : bool }.

Record DockgeSocket : Type := {
  endpoint : string;
  socket_id : string
}.

(** A process handed to the pseudo terminal: program, argument vector
    and working directory. *)
Record Spawn : Type := {
  sp_file : string;
  sp_args : list string;
  sp_cwd : string
}.

(** A registered [Terminal]: its name is the key of [terminalMap].  The
    screen size, the output buffer and the timers take no part in the
    exit path and are left out. *)
Record Terminal : Type := {
  t_spawn : Spawn;
  t_sockets : list string
}.

(** The [Stack] object. *)
Record Stack : Type := {
  name : string;
  _status : status;
  _composeFileName : string;
  _composeOverrideFileName : string;
  fileCache : gmap string string
}.

(** Everything outside the object that the operations read or change. *)
Record World : Type := {
  disk : gmap string node;
  terminalMap : gmap string Terminal;
  spawned : list Spawn     (* processes handed to a terminal, oldest first *)
}.

Record State : Type := {
  this : Stack;
  world : World
}.

(** ** A state-and-exception monad for the methods

    A thrown exception keeps the state reached so far: nothing is rolled
    back. *)
Definition M (A : Type) : Type := State -> result A * State.

Definition ret {A} (a : A) : M A := fun s => (Ret a, s).

Definition throw {A} (e : exn) : M A := fun s => (Throw e, s).

Definition bind {A B} (m : M A) (k : A -> M B) : M B :=
  fun s =>
    match m s with
    | (Ret a, s') => k a s'
    | (Throw e, s') => (Throw e, s')
    end.

(** [try { m } catch (e) { h }] *)
Definition try_catch {A} (m : M A) (h : exn -> M A) : M A :=
  fun s =>
    match m s with
    | (Ret a, s') => (Ret a, s')
    | (Throw e, s') => h e s'
    end.

Definition gets {A} (f : State -> A) : M A := fun s => (Ret (f s), s).

Definition modify (f : State -> State) : M unit := fun s => (Ret tt, f s).

Declare Scope m_scope.
Delimit Scope m_scope with M.
Notation "x <- c1 ;; c2" := (bind c1 (fun x => c2))
  (at level 100, c1 at next level, right associativity) : m_scope.
Notation "c1 ;;; c2" := (bind c1 (fun _ => c2))
  (at level 100, right associativity) : m_scope.

Definition set_this (f : Stack -> Stack) (s : State) : State :=
  {| this := f (this s); world := world s |}.

Definition set_world (f : World -> World) (s : State) : State :=
  {| this := this s; world := f (world s) |}.

Definition with_fileCache (c : gmap string string) (k : Stack) : Stack :=
  {| name := name k; _status := _status k;
     _composeFileName := _composeFileName k;
     _composeOverrideFileName := _composeOverrideFileName k;
     fileCache := c |}.

Definition with_status (st : status) (k : Stack) : Stack :=
  {| name := name k; _status := st;
     _composeFileName := _composeFileName k;
     _composeOverrideFileName := _composeOverrideFileName k;
     fileCache := fileCache k |}.

Definition with_disk (d : gmap string node) (w : World) : World :=
  {| disk := d; terminalMap := terminalMap w; spawned := spawned w |}.

Definition with_terminalMap (t : gmap string Terminal) (w : World) : World :=
  {| disk := disk w; terminalMap := t; spawned := spawned w |}.

Definition with_spawned (l : list Spawn) (w : World) : World :=
  {| disk := disk w; terminalMap := terminalMap w; spawned := l |}.

(** ** Paths and the disk *)

(** [path.join(a, b)] on the paths the code builds: a directory and one
    more segment.  Node also normalises the result; the directories here
    are taken as already normalised. *)
Definition path_join (a b : string) : string := a ++ "/" ++ b.

(** [p] itself or something below it. *)
Definition under (p k : string) : bool :=
  String.eqb k p || JS.startsWith (p ++ "/") k.

Definition exists_on (d : gmap string node) (p : string) : bool :=
  match d !! p with
  | Some _ => true
  | None => false
  end.

(** [fs.existsSync(p)] *)
Definition existsSync (p : string) : M bool :=
  gets (fun s => exists_on (disk (world s)) p).

(** Modelled from the spec: [fileExists] of [util-server] (not part of the
    sources), the asynchronous counterpart of [existsSync]. *)
Definition fileExists (p : string) : M bool :=
  gets (fun s => exists_on (disk (world s)) p).

(** [fs.readFileSync(p, "utf-8")] *)
Definition readFileSync (p : string) : M string :=
  fun s =>
    match disk (world s) !! p with
    | Some (File c) => (Ret c, s)
    | Some Dir => (Throw (FsError "EISDIR"), s)
    | None => (Throw (FsError "ENOENT"), s)
    end.

(** [fsAsync.writeFile(p, content)] *)
Definition writeFile (p content : string) : M unit :=
  fun s =>
    match disk (world s) !! p with
    | Some Dir => (Throw (FsError "EISDIR"), s)
    | _ => (Ret tt, set_world (fun w => with_disk (<[p := File content]> (disk w)) w) s)
    end.

(** [fsAsync.mkdir(p)] *)
Definition mkdir (p : string) : M unit :=
  fun s =>
    match disk (world s) !! p with
    | Some _ => (Throw (FsError "EEXIST"), s)
    | None => (Ret tt, set_world (fun w => with_disk (<[p := Dir]> (disk w)) w) s)
    end.

Definition rm_tree (p : string) (d : gmap string node) : gmap string node :=
  filter (fun kv => under p (fst kv) = false) d.

(** [fsAsync.rm(p, { recursive: true, force: true })] *)
Definition rm_rf (p : string) : M unit :=
  modify (set_world (fun w => with_disk (rm_tree p (disk w)) w)).

(** [options.splice(start, 0, ...items)] *)
Definition splice (start : nat) (items l : list string) : list string :=
  take start l ++ items ++ drop start l.

(** The name pattern [/^[a-z0-9_-]+$/]. *)
Definition is_name_char (a : ascii) : bool :=
  let n := nat_of_ascii a in
  (Nat.leb 97 n && Nat.leb n 122) || (Nat.leb 48 n && Nat.leb n 57)
  || Nat.eqb n 95 || Nat.eqb n 45.

Definition matches_name_pattern (s : string) : bool :=
  match s with
  | EmptyString => false
  | _ => forallb is_name_char (list_ascii_of_string s)
  end.

(** The line feed of ["\n"]. *)
Definition LF : ascii := "010"%char.

(** The test of [validateEnvFormat] on the content of the [.env] file. *)
Definition invalidEnvFormat (composeENV : string) : bool :=
  match JS.split LF composeENV with
  | [l0] => negb (JS.includes "=" l0) && Nat.ltb 0 (String.length l0)
  | _ => false
  end.

Definition getErrorMessage (actionDescription : string) : string :=
  "Failed to " ++ actionDescription ++
  ", please check the terminal output for more information.".

(** Modelled from the spec: [getComposeTerminalName] of
    [common/util-common] (not part of the sources), a deterministic name
    built from the operation family, the endpoint and the project name. *)
Definition composeTerminalName (endpoint stack : string) : string :=
  "compose-" ++ endpoint ++ "-" ++ stack.

(** ** The [Terminal] classes, event by event

    The terminals are objects: the heap maps references to them and
    [terminalMap], the static registry, maps names to references.  What
    a pseudo terminal does later (its output, its end) and the timers
    are events, each a function of its own: [onData], [exit],
    [keepAliveTick], [kickTick]. *)

Module Term.

Inductive kind : Type :=
| Plain          (* Terminal *)
| Interactive    (* InteractiveTerminal *)
| Main           (* MainTerminal *)
| Attach.        (* AttachTerminal *)

Record terminal : Type := {
  tname : string;
  tkind : kind;
  file : string;
  args : list string;
  cwd : string;
  rows : Z;
  cols : Z;
  started : bool;            (* [_ptyProcess] is set *)
  enableKeepAlive : bool;
  keepAliveInterval : bool;  (* the timer is set and not cleared *)
  kickInterval : bool;
  socketList : list string;  (* ids of the joined sockets, oldest first *)
  buffer : list string;
  awaited : bool             (* [onExit] has registered a callback *)
}.

Inductive event : Type :=
| terminalWrite (terminalName data : string)
| terminalExit (terminalName : string) (exitCode : JS.number).

Record sys : Type := {
  heap : gmap nat terminal;
  terminalMap : gmap string nat;
  next : nat;                          (* the next fresh reference *)
  processes : list (nat * Spawn);      (* pseudo terminals spawned, by owner *)
  input : list (nat * string);         (* text written to a pseudo terminal *)
  emitted : list (string * event);     (* [emitAgent] calls: socket id, event *)
  resolved : list (nat * JS.number)    (* exit callbacks called, with the code *)
}.

(** What the module takes from outside: whether [pty.spawn] throws, and
    with which message; JavaScript's [Number]; [LimitQueue.pushItem] of
    [utils/limit-queue] and the sizes of [common/util-common],
    neither in the sources. *)
Record env : Type := {
  spawn_error : Spawn -> option string;
  Number : string -> JS.number;
  pushItem : list string -> string -> list string;
  TERMINAL_ROWS : Z;
  TERMINAL_COLS : Z;
  PROGRESS_TERMINAL_ROWS : Z;
  COMBINED_TERMINAL_ROWS : Z;
  COMBINED_TERMINAL_COLS : Z
}.

Definition update_heap (ref : nat) (f : terminal -> terminal) (s : sys) : sys :=
  {| heap := alter f ref (heap s); terminalMap := terminalMap s; next := next s;
     processes := processes s; input := input s; emitted := emitted s;
     resolved := resolved s |}.

Definition set_sockets (l : list string) (t : terminal) : terminal :=
  {| tname := tname t; tkind := tkind t; file := file t; args := args t;
     cwd := cwd t; rows := rows t; cols := cols t; started := started t;
     enableKeepAlive := enableKeepAlive t;
     keepAliveInterval := keepAliveInterval t; kickInterval := kickInterval t;
     socketList := l; buffer := buffer t; awaited := awaited t |}.

Definition set_started (b : bool) (t : terminal) : terminal :=
  {| tname := tname t; tkind := tkind t; file := file t; args := args t;
     cwd := cwd t; rows := rows t; cols := cols t; started := b;
     enableKeepAlive := enableKeepAlive t;
     keepAliveInterval := keepAliveInterval t; kickInterval := kickInterval t;
     socketList := socketList t; buffer := buffer t; awaited := awaited t |}.

Definition set_timers (keepAlive kick : bool) (t : terminal) : terminal :=
  {| tname := tname t; tkind := tkind t; file := file t; args := args t;
     cwd := cwd t; rows := rows t; cols := cols t; started := started t;
     enableKeepAlive := enableKeepAlive t;
     keepAliveInterval := keepAlive; kickInterval := kick;
     socketList := socketList t; buffer := buffer t; awaited := awaited t |}.

Definition set_buffer (b : list string) (t : terminal) : terminal :=
  {| tname := tname t; tkind := tkind t; file := file t; args := args t;
     cwd := cwd t; rows := rows t; cols := cols t; started := started t;
     enableKeepAlive := enableKeepAlive t;
     keepAliveInterval := keepAliveInterval t; kickInterval := kickInterval t;
     socketList := socketList t; buffer := b; awaited := awaited t |}.

Definition set_rows (r : Z) (t : terminal) : terminal :=
  {| tname := tname t; tkind := tkind t; file := file t; args := args t;
     cwd := cwd t; rows := r; cols := cols t; started := started t;
     enableKeepAlive := enableKeepAlive t;
     keepAliveInterval := keepAliveInterval t; kickInterval := kickInterval t;
     socketList := socketList t; buffer := buffer t; awaited := awaited t |}.

Definition set_awaited (b : bool) (t : terminal) : terminal :=
  {| tname := tname t; tkind := tkind t; file := file t; args := args t;
     cwd := cwd t; rows := rows t; cols := cols t; started := started t;
     enableKeepAlive := enableKeepAlive t;
     keepAliveInterval := keepAliveInterval t; kickInterval := kickInterval t;
     socketList := socketList t; buffer := buffer t; awaited := b |}.

Definition set_cols (c : Z) (t : terminal) : terminal :=
  {| tname := tname t; tkind := tkind t; file := file t; args := args t;
     cwd := cwd t; rows := rows t; cols := c; started := started t;
     enableKeepAlive := enableKeepAlive t;
     keepAliveInterval := keepAliveInterval t; kickInterval := kickInterval t;
     socketList := socketList t; buffer := buffer t; awaited := awaited t |}.

Definition set_enableKeepAlive (b : bool) (t : terminal) : terminal :=
  {| tname := tname t; tkind := tkind t; file := file t; args := args t;
     cwd := cwd t; rows := rows t; cols := cols t; started := started t;
     enableKeepAlive := b;
     keepAliveInterval := keepAliveInterval t; kickInterval := kickInterval t;
     socketList := socketList t; buffer := buffer t; awaited := awaited t |}.

Definition emit (l : list (string * event)) (s : sys) : sys :=
  {| heap := heap s; terminalMap := terminalMap s; next := next s;
     processes := processes s; input := input s; emitted := emitted s ++ l;
     resolved := resolved s |}.

(** [for (const socketID in this.socketList) socket.emitAgent(...)] *)
Definition broadcast (t : terminal) (e : event) (s : sys) : sys :=
  emit (map (fun socketID => (socketID, e)) (socketList t)) s.

Definition command_of (t : terminal) : Spawn :=
  {| sp_file := file t; sp_args := args t; sp_cwd := cwd t |}.

Section WithEnv.

Variable E : env.

(** The constructor of [Terminal]: a new object, registered under its
    name, whatever was registered there. *)
Definition construct (k : kind) (name file : string)
    (arguments : list string) (dir : string) (s : sys) : nat * sys :=
  let t := {| tname := name; tkind := k; file := file; args := arguments;
              cwd := dir; rows := TERMINAL_ROWS E; cols := TERMINAL_COLS E;
              started := false; enableKeepAlive := false;
              keepAliveInterval := false; kickInterval := false;
              socketList := []; buffer := []; awaited := false |} in
  (next s,
   {| heap := <[next s := t]> (heap s);
      terminalMap := <[name := next s]> (terminalMap s);
      next := S (next s);
      processes := processes s; input := input s; emitted := emitted s;
      resolved := resolved s |}).

(** [join(socket)]: [this.socketList[socket.id] = socket] *)
Definition join (ref : nat) (socketID : string) (s : sys) : sys :=
  update_heap ref
    (fun t => if existsb (String.eqb socketID) (socketList t) then t
              else set_sockets (socketList t ++ [socketID]) t) s.

(** [leave(socket)]: [delete this.socketList[socket.id]] *)
Definition leave (ref : nat) (socketID : string) (s : sys) : sys :=
  update_heap ref
    (fun t => set_sockets
                (List.filter (fun i => negb (String.eqb socketID i)) (socketList t))
                t) s.

(** The exit handler. *)
Definition exit (ref : nat) (exitCode : JS.number) (s : sys) : sys :=
  match heap s !! ref with
  | None => s
  | Some t =>
      let s1 := broadcast t (terminalExit (tname t) exitCode) s in
      {| heap := <[ref := set_timers false false (set_sockets [] t)]> (heap s1);
         terminalMap := delete (tname t) (terminalMap s1);
         next := next s1;
         processes := processes s1; input := input s1; emitted := emitted s1;
         resolved := if awaited t then resolved s1 ++ [(ref, exitCode)]
                     else resolved s1 |}
  end.

(** [start()] *)
Definition start (ref : nat) (s : sys) : sys :=
  match heap s !! ref with
  | None => s
  | Some t =>
      if started t then s
      else
        let t1 := set_timers (enableKeepAlive t) true t in
        match spawn_error E (command_of t) with
        | None =>
            {| heap := <[ref := set_started true t1]> (heap s);
               terminalMap := terminalMap s; next := next s;
               processes := processes s ++ [(ref, command_of t)];
               input := input s; emitted := emitted s; resolved := resolved s |}
        | Some message =>
            exit ref (Number E (List.last (JS.split " " message) ""))
              (update_heap ref (fun _ => set_timers false true t1) s)
        end
  end.

(** The data handler of the pseudo terminal. *)
Definition onData (ref : nat) (data : string) (s : sys) : sys :=
  match heap s !! ref with
  | None => s
  | Some t =>
      broadcast t (terminalWrite (tname t) data)
        (update_heap ref (set_buffer (pushItem E (buffer t) data)) s)
  end.

(** [close()]: no more keep-alive, Ctrl+C to the process if there is one. *)
Definition close (ref : nat) (s : sys) : sys :=
  match heap s !! ref with
  | None => s
  | Some t =>
      let s1 := update_heap ref
                  (fun t => set_timers false (kickInterval t) t) s in
      if started t
      then {| heap := heap s1; terminalMap := terminalMap s1; next := next s1;
              processes := processes s1;
              input := input s1 ++ [(ref, String "003"%char EmptyString)];
              emitted := emitted s1; resolved := resolved s1 |}
      else s1
  end.

(** One round of the keep-alive timer. *)
Definition keepAliveTick (ref : nat) (s : sys) : sys :=
  match heap s !! ref with
  | None => s
  | Some t =>
      if keepAliveInterval t && Nat.eqb (length (socketList t)) 0
      then close ref s else s
  end.

(** One round of the timer that removes the sockets found disconnected. *)
Definition kickTick (connected : string -> bool) (ref : nat) (s : sys) : sys :=
  match heap s !! ref with
  | None => s
  | Some t =>
      if kickInterval t
      then fold_left (fun acc socketID =>
                        if connected socketID then acc else leave ref socketID acc)
             (socketList t) s
      else s
  end.

(** [getBuffer()] *)
Definition getBuffer (t : terminal) : string :=
  match buffer t with
  | [] => EmptyString
  | chunks => String.concat EmptyString chunks
  end.

(** [Terminal.getTerminal(name)] *)
Definition getTerminal (name : string) (s : sys) : option nat :=
  terminalMap s !! name.

(** [Terminal.getOrCreateTerminal(server, name, file, args, cwd)] *)
Definition getOrCreateTerminal (name file : string) (arguments : list string)
    (dir : string) (s : sys) : nat * sys :=
  match getTerminal name s with
  | Some ref => (ref, s)
  | None => construct Plain name file arguments dir s
  end.

(** [Terminal.exec]: the promise is rejected at once, or a terminal is
    started whose exit will resolve it. *)
Definition exec (socket : option string) (terminalName file : string)
    (arguments : list string) (dir : string) (s : sys) : result nat * sys :=
  match terminalMap s !! terminalName with
  | Some _ =>
      (Throw (Rejection "Another operation is already running, please try again later."),
       s)
  | None =>
      let (ref, s1) := construct Plain terminalName file arguments dir s in
      let s2 := update_heap ref (set_rows (PROGRESS_TERMINAL_ROWS E)) s1 in
      let s3 := match socket with
                | Some socketID => join ref socketID s2
                | None => s2
                end in
      let s4 := update_heap ref (set_awaited true) s3 in
      (Ret ref, start ref s4)
  end.

(** [InteractiveTerminal.write(input)] *)
Definition write (ref : nat) (text : string) (s : sys) : sys :=
  match heap s !! ref with
  | Some t =>
      if started t
      then {| heap := heap s; terminalMap := terminalMap s; next := next s;
              processes := processes s; input := input s ++ [(ref, text)];
              emitted := emitted s; resolved := resolved s |}
      else s
  | None => s
  end.

(** [AttachTerminal.startWithLogs()], with the logs that
    [getContainerLogs] resolved to. *)
Definition startWithLogs (ref : nat) (logs : string) (s : sys) : sys :=
  match heap s !! ref with
  | None => s
  | Some t => start ref (broadcast t (terminalWrite (tname t) logs) s)
  end.

(** [AttachTerminal.getOrCreateAttachTerminal]: an attach terminal under
    the name is reused, anything else is replaced by a new one. *)
Definition getOrCreateAttachTerminal (name serviceName dir logs : string)
    (s : sys) : nat * sys :=
  let reuse :=
    match getTerminal name s with
    | Some ref =>
        match heap s !! ref with
        | Some t => match tkind t with Attach => Some ref | _ => None end
        | None => None
        end
    | None => None
    end in
  match reuse with
  | Some ref => (ref, startWithLogs ref logs s)
  | None =>
      let (ref, s1) :=
        construct Attach name "docker"
          ["compose"; "attach"; "--sig-proxy=false"; serviceName] dir s in
      (ref, startWithLogs ref logs s1)
  end.

(** [Stack.joinCombinedTerminal], given the terminal name and the
    compose arguments that the stack computes. *)
Definition joinCombinedTerminal (terminalName : string)
    (arguments : list string) (dir socketID : string) (s : sys) : sys :=
  let (ref, s1) := getOrCreateTerminal terminalName "docker" arguments dir s in
  let s2 := update_heap ref (set_enableKeepAlive true) s1 in
  let s3 := update_heap ref (set_rows (COMBINED_TERMINAL_ROWS E)) s2 in
  let s4 := update_heap ref (set_cols (COMBINED_TERMINAL_COLS E)) s3 in
  start ref (join ref socketID s4).

(** [Stack.leaveCombinedTerminal] *)
Definition leaveCombinedTerminal (terminalName socketID : string) (s : sys) : sys :=
  match getTerminal terminalName s with
  | Some ref => leave ref socketID s
  | None => s
  end.

(** [Stack.joinContainerTerminal], given the terminal name and the
    compose arguments. *)
Definition joinContainerTerminal (terminalName : string)
    (arguments : list string) (dir socketID : string) (s : sys) : sys :=
  let (ref, s1) :=
    match getTerminal terminalName s with
    | Some ref => (ref, s)
    | None =>
        let (ref, s0) := construct Interactive terminalName "docker" arguments dir s in
        (ref, update_heap ref (set_rows (TERMINAL_ROWS E)) s0)
    end in
  start ref (join ref socketID s1).

End WithEnv.

(** What one socket was sent, in order. *)
Definition received (socketID : string) (l : list (string * event)) : list event :=
  map snd (List.filter (fun p => String.eqb socketID (fst p)) l).

(** The sockets joined to a terminal. *)
Definition viewers (ref : nat) (s : sys) : list string :=
  match heap s !! ref with
  | Some t => socketList t
  | None => []
  end.

End Term.

(** *** Sample terminals

    A host whose pseudo terminals always start and one where they never
    do, with the sizes of [common/util-common]; [JS.parseInt] stands in
    for [Number], with which it agrees on decimal numerals, and an
    append for [pushItem], which it is below the limit of the queue. *)
Definition host_with (failure : option string) : Term.env :=
  {| Term.spawn_error := fun _ => failure;
     Term.Number := JS.parseInt;
     Term.pushItem := fun queue data => queue ++ [data];
     Term.TERMINAL_ROWS := 10;
     Term.TERMINAL_COLS := 105;
     Term.PROGRESS_TERMINAL_ROWS := 8;
     Term.COMBINED_TERMINAL_ROWS := 20;
     Term.COMBINED_TERMINAL_COLS := 58 |}.

Definition host : Term.env := host_with None.

Definition no_terminals : Term.sys :=
  {| Term.heap := ∅; Term.terminalMap := ∅; Term.next := 0;
     Term.processes := []; Term.input := []; Term.emitted := [];
     Term.resolved := [] |}.

(** The terminal of the combined logs of "web", of a given class, started
    or not, with its viewers. *)
Definition logs_terminal (k : Term.kind) (running : bool) (sockets : list string)
  : Term.terminal :=
  {| Term.tname := "combined--web"; Term.tkind := k; Term.file := "docker";
     Term.args := ["compose"; "logs"; "-f"; "--tail"; "100"];
     Term.cwd := "/opt/stacks/web"; Term.rows := 20; Term.cols := 58;
     Term.started := running; Term.enableKeepAlive := true;
     Term.keepAliveInterval := running; Term.kickInterval := running;
     Term.socketList := sockets; Term.buffer := []; Term.awaited := false |}.

(** The system in which one terminal is registered, as object 0. *)
Definition registered (t : Term.terminal) : Term.sys :=
  {| Term.heap := {[0 := t]}; Term.terminalMap := {[Term.tname t := 0]};
     Term.next := 1;
     Term.processes := if Term.started t then [(0, Term.command_of t)] else [];
     Term.input := []; Term.emitted := []; Term.resolved := [] |}.

(** ** The code of [Stack] and [Terminal.exec] *)

Section Dockge.

Set Default Proof Using "Type".

(** [server.stacksDir] *)
Variable stacksDir : string.

(** The two tables of accepted file names of [common/util-common]
    (not part of the sources). *)
Variable acceptedComposeFileNames : list string.
Variable acceptedComposeOverrideFileNames : list string.

(** [getComposeTerminalName] of [common/util-common]. *)
Variable getComposeTerminalName : string -> string -> string.

(** [yaml.parse(s)] returns ([true]) or throws ([false]). *)
Variable yaml_ok : string -> bool.

(** [JSON.parse] of one line of [docker ps]; [None] when it throws. *)
Variable JSON_parse : string -> option ContainerJson.

(** Standard output of
    [docker ps -a --filter label=com.docker.compose.project=<name> --format json];
    [None] when the child process fails. *)
Variable dockerPs : string -> option string.

(** Parsed output of [docker compose ls --all --format json]; [None]
    when there is no output, the process fails or the output does not
    parse: in all three cases the status list stays empty. *)
Variable composeLs : option (list StackJson).

(** Exit code handed to the terminal's exit handler for a process: the
    code the process ends with or, when it cannot be started, the
    number read from the failure message. *)
Variable ptyExit : Spawn -> JS.number.

(** *** Status classification *)

Fixpoint parseLines (lines : list string) : option (list ContainerJson) :=
  match lines with
  | [] => Some []
  | e :: rest =>
      match JSON_parse (JS.trim e) with
      | Some c =>
          match parseLines rest with
          | Some cs => Some (c :: cs)
          | None => None
          end
      | None => None
      end
  end.

(** [None] stands for a [JSON.parse] that throws. *)
Definition parseDockerJsonLines (output : string) : option (list ContainerJson) :=
  parseLines
    (List.filter (fun e => negb (String.eqb (JS.trim e) "")) (JS.split LF output)).

(** [null] is [None]. *)
Definition getSingleComposeStatus (composeName : string)
  : option (list ContainerJson) :=
  match dockerPs composeName with
  | None => None
  | Some stdout =>
      if String.eqb stdout "" then None else parseDockerJsonLines stdout
  end.

(** [parseInt(composeStack.Status.split("(")[1].split(")")[0])] *)
Definition expectedContainersExited (composeStack : StackJson) : result JS.number :=
  match nth_error (JS.split "(" (sj_Status composeStack)) 1 with
  | None => Throw TypeError
  | Some inner =>
      match JS.split ")" inner with
      | x :: _ => Ret (JS.parseInt x)
      | [] => Ret JS.NaN
      end
  end.

(** The [for] loop of [isComposeExitClean]; [None] is its early
    [return EXITED]. *)
Fixpoint exitLoop (composeStatus : list ContainerJson)
    (cleanlyExitedContainerCount : Z) : option Z :=
  match composeStatus with
  | [] => Some cleanlyExitedContainerCount
  | containerStatus :: rest =>
      let status := JS.trim (cj_Status containerStatus) in
      if JS.startsWith "exited" status then
        if JS.startsWith "exited (0)" status
        then exitLoop rest (cleanlyExitedContainerCount + 1)%Z
        else None
      else exitLoop rest cleanlyExitedContainerCount
  end.

Definition isComposeExitClean (composeStack : StackJson) : result status :=
  match expectedContainersExited composeStack with
  | Throw e => Throw e
  | Ret expected =>
      match getSingleComposeStatus (sj_Name composeStack) with
      | None => Ret EXITED
      | Some composeStatus =>
          match exitLoop composeStatus 0 with
          | None => Ret EXITED
          | Some count =>
              if JS.strict_eq (JS.Num count) expected
              then Ret RUNNING else Ret EXITED
          end
      end
  end.

Definition statusConvert (composeStack : StackJson) : result status :=
  if JS.startsWith "created" (sj_Status composeStack) then Ret CREATED_STACK
  else if JS.includes "exited" (sj_Status composeStack)
       then isComposeExitClean composeStack
  else if JS.startsWith "running" (sj_Status composeStack) then Ret RUNNING
  else Ret UNKNOWN.

(** The loop of [getStatusList]; an exception leaves it through the
    [catch], which logs and falls through to [return statusList]. *)
Fixpoint statusLoop (composeList : list StackJson)
    (statusList : gmap string status) : gmap string status :=
  match composeList with
  | [] => statusList
  | composeStack :: rest =>
      match statusConvert composeStack with
      | Ret st => statusLoop rest (<[sj_Name composeStack := st]> statusList)
      | Throw _ => statusList
      end
  end.

Definition getStatusList : gmap string status :=
  match composeLs with
  | None => ∅
  | Some composeList => statusLoop composeList ∅
  end.

(** [this._status = statusList.get(this.name) || UNKNOWN] *)
Definition updateStatus : M unit :=
  modify (set_this (fun k =>
    with_status (default UNKNOWN (getStatusList !! name k)) k)).

(** *** File names and cached contents *)

Definition stack_path (k : Stack) : string := path_join stacksDir (name k).

(** [get path()] *)
Definition path : M string := gets (fun s => stack_path (this s)).

(** The loop shared by [findComposeFileName] and
    [findComposeOverrideFileName]. *)
Fixpoint findFileName (d : gmap string node) (dir : string)
    (accepted : list string) (fallback : string) : string :=
  match accepted with
  | [] => fallback
  | filename :: rest =>
      if exists_on d (path_join dir filename) then filename
      else findFileName d dir rest fallback
  end.

Definition findComposeFileName (d : gmap string node) (k : Stack) : string :=
  findFileName d (stack_path k) acceptedComposeFileNames "compose.yaml".

Definition findComposeOverrideFileName (d : gmap string node) (k : Stack) : string :=
  findFileName d (stack_path k) acceptedComposeOverrideFileNames
    "compose.override.yaml".

Definition cache_set (cacheKey value : string) : M unit :=
  modify (set_this (fun k => with_fileCache (<[cacheKey := value]> (fileCache k)) k)).

Definition getFileContent (filePath cacheKey defaultValue : string) : M string :=
  (cached <- gets (fun s => fileCache (this s) !! cacheKey) ;;
   (match cached with
    | None =>
        try_catch
          (content <- readFileSync filePath ;; cache_set cacheKey content)
          (fun _ => cache_set cacheKey defaultValue)
    | Some _ => ret tt
    end) ;;;
   now <- gets (fun s => fileCache (this s) !! cacheKey) ;;
   match now with
   | Some content => ret content
   | None => throw TypeError   (* not reached: the key has just been set *)
   end)%M.

(** [get composeYAML()] *)
Definition composeYAML : M string :=
  (p <- path ;;
   f <- gets (fun s => _composeFileName (this s)) ;;
   getFileContent (path_join p f) "compose" "")%M.

(** [get composeENV()] *)
Definition composeENV : M string :=
  (p <- path ;; getFileContent (path_join p ".env") "env" "")%M.

(** [get composeOverrideYAML()] *)
Definition composeOverrideYAML : M string :=
  (p <- path ;;
   f <- gets (fun s => _composeOverrideFileName (this s)) ;;
   getFileContent (path_join p f) "override" "")%M.

(** [new Stack(server, name, composeYAML?, composeENV?, composeOverrideYAML?, skipFSOperations)];
    [None] is an argument left [undefined]. *)
Definition seed (cacheKey : string) (v : option string)
    (c : gmap string string) : gmap string string :=
  match v with
  | Some content => <[cacheKey := content]> c
  | None => c
  end.

Definition new_Stack (d : gmap string node) (nm : string)
    (yaml env override : option string) (skipFSOperations : bool) : Stack :=
  let k0 := {| name := nm; _status := UNKNOWN;
               _composeFileName := "compose.yaml";
               _composeOverrideFileName := "compose.override.yaml";
               fileCache := seed "override" override
                              (seed "env" env (seed "compose" yaml ∅)) |} in
  if skipFSOperations then k0
  else {| name := nm; _status := UNKNOWN;
          _composeFileName := findComposeFileName d k0;
          _composeOverrideFileName := findComposeOverrideFileName d k0;
          fileCache := fileCache k0 |}.

(** *** Validation and saving *)

Definition yaml_parse (s : string) : M unit :=
  if yaml_ok s then ret tt else throw YAMLParseError.

Definition validateEnvFormat : M unit :=
  (env <- composeENV ;;
   if invalidEnvFormat env
   then throw (ValidationError "Invalid .env format")
   else ret tt)%M.

Definition validate : M unit :=
  (nm <- gets (fun s => name (this s)) ;;
   if negb (matches_name_pattern nm)
   then throw (ValidationError "Stack name can only contain [a-z][0-9] _ - only")
   else
     y <- composeYAML ;;
     yaml_parse y ;;;
     o <- composeOverrideYAML ;;
     (if negb (String.eqb o "")
      then o' <- composeOverrideYAML ;;
           if negb (String.eqb (JS.trim o') "")
           then o'' <- composeOverrideYAML ;; yaml_parse o''
           else ret tt
      else ret tt) ;;;
     validateEnvFormat)%M.

Definition writeFileIfExistsOrNotEmpty (filePath content : string) : M unit :=
  (e <- fileExists filePath ;;
   if e || negb (String.eqb (JS.trim content) "")
   then writeFile filePath content
   else ret tt)%M.

Definition writeFileIfNotEmpty (filePath content : string) : M unit :=
  writeFile filePath content.

Definition writeStackFiles : M unit :=
  (p <- path ;;
   f <- gets (fun s => _composeFileName (this s)) ;;
   y <- composeYAML ;;
   writeFileIfNotEmpty (path_join p f) y ;;;
   p' <- path ;;
   env <- composeENV ;;
   writeFileIfExistsOrNotEmpty (path_join p' ".env") env ;;;
   p'' <- path ;;
   g <- gets (fun s => _composeOverrideFileName (this s)) ;;
   o <- composeOverrideYAML ;;
   writeFileIfExistsOrNotEmpty (path_join p'' g) o ;;;
   modify (set_this (with_fileCache ∅)))%M.

Definition save (isAdd : bool) : M unit :=
  (validate ;;;
   dir <- path ;;
   (if isAdd
    then e <- fileExists dir ;;
         if e then throw (ValidationError "Stack name already exists")
         else mkdir dir
    else e <- fileExists dir ;;
         if negb e then throw (ValidationError "Stack not found")
         else ret tt) ;;;
   writeStackFiles)%M.

(** *** Running commands *)

Definition getComposeOptions (command : string) (extraOptions : list string)
  : M (list string) :=
  (let options := "compose" :: command :: extraOptions in
   g <- existsSync (path_join stacksDir "global.env") ;;
   if g then
     let options1 := splice 1 ["--env-file"; "../global.env"] options in
     p <- path ;;
     l <- existsSync (path_join p ".env") ;;
     if l then ret (splice 1 ["--env-file"; "./.env"] options1)
     else ret options1
   else ret options)%M.

Definition register (terminalName : string) (t : Terminal) : M unit :=
  modify (set_world (fun w =>
    with_terminalMap (<[terminalName := t]> (terminalMap w)) w)).

Definition join_terminal (terminalName socketID : string) : M unit :=
  modify (set_world (fun w =>
    with_terminalMap
      (alter (fun t => {| t_spawn := t_spawn t;
                          t_sockets := socketID :: t_sockets t |})
             terminalName (terminalMap w)) w)).

(** [Terminal.exec]: refuse when the name is taken; otherwise register a
    terminal, join the socket, start the process and resolve with the
    exit code handed to the exit handler, which has removed the
    terminal from the map. *)
Definition Terminal_exec (socket : option DockgeSocket)
    (terminalName file : string) (args : list string) (cwd : string)
  : M JS.number :=
  (busy <- gets (fun s => terminalMap (world s) !! terminalName) ;;
   match busy with
   | Some _ =>
       throw (Rejection "Another operation is already running, please try again later.")
   | None =>
       let sp := {| sp_file := file; sp_args := args; sp_cwd := cwd |} in
       register terminalName {| t_spawn := sp; t_sockets := [] |} ;;;
       (match socket with
        | Some so => join_terminal terminalName (socket_id so)
        | None => ret tt
        end) ;;;
       modify (set_world (fun w => with_spawned (spawned w ++ [sp]) w)) ;;;
       modify (set_world (fun w =>
         with_terminalMap (delete terminalName (terminalMap w)) w)) ;;;
       ret (ptyExit sp)
   end)%M.

Definition runTerminalExec (socket : DockgeSocket) (command : string)
    (args : list string) (actionDescription : string) : M JS.number :=
  (nm <- gets (fun s => name (this s)) ;;
   let terminalName := getComposeTerminalName (endpoint socket) nm in
   p <- path ;;
   exitCode <- Terminal_exec (Some socket) terminalName command args p ;;
   if negb (JS.strict_eq exitCode (JS.Num 0))
   then throw (Error (getErrorMessage actionDescription))
   else ret exitCode)%M.

Definition runComposeCommand (socket : DockgeSocket) (command : string)
    (args : list string) (actionDescription : string) : M JS.number :=
  (fullArgs <- getComposeOptions command args ;;
   runTerminalExec socket "docker" fullArgs actionDescription)%M.

Definition deploy (socket : DockgeSocket) : M JS.number :=
  runComposeCommand socket "up" ["-d"; "--remove-orphans"] "deploy".

(** [delete(socket, options)]; the name [delete] is taken by the map
    library. *)
Definition delete_stack (socket : DockgeSocket) (options : DeleteOptions)
  : M JS.number :=
  (nm <- gets (fun s => name (this s)) ;;
   exitCode <- runComposeCommand socket "down" ["--remove-orphans"]
                 ("delete " ++ nm) ;;
   (if deleteStackFiles options
    then p <- path ;; rm_rf p
    else ret tt) ;;;
   ret exitCode)%M.

Definition forceDelete (socket : DockgeSocket) : M JS.number :=
  (nm <- gets (fun s => name (this s)) ;;
   let terminalName := getComposeTerminalName (endpoint socket) nm in
   args <- getComposeOptions "down" ["-v"; "--remove-orphans"] ;;
   p <- path ;;
   exitCode <- Terminal_exec (Some socket) terminalName "docker" args p ;;
   if negb (JS.strict_eq exitCode (JS.Num 0))
   then nm' <- gets (fun s => name (this s)) ;;
        throw (Error (getErrorMessage ("force delete " ++ nm')))
   else
     p' <- path ;;
     rm_rf p' ;;;
     ret exitCode)%M.

Definition status_eqb (a b : status) : bool :=
  match a, b with
  | UNKNOWN, UNKNOWN | CREATED_FILE, CREATED_FILE
  | CREATED_STACK, CREATED_STACK | RUNNING, RUNNING | EXITED, EXITED => true
  | _, _ => false
  end.

Definition update (socket : DockgeSocket) : M JS.number :=
  (exitCode <- runComposeCommand socket "pull" [] "pull" ;;
   updateStatus ;;;
   st <- gets (fun s => _status (this s)) ;;
   if status_eqb st RUNNING
   then
     _ <- runComposeCommand socket "up" ["-d"; "--remove-orphans"] "restart" ;;
     runTerminalExec socket "docker" ["image"; "prune"; "--all"; "--force"]
       "prune images"
   else ret exitCode)%M.

(** *** Vocabulary of the statements *)

(** The three text artifacts of a stack, with their accessor, cache key
    and backing file. *)
Inductive artifact : Type :=
| Primary
| Environment
| Override.

Definition accessor (a : artifact) : M string :=
  match a with
  | Primary => composeYAML
  | Environment => composeENV
  | Override => composeOverrideYAML
  end.

Definition artifact_key (a : artifact) : string :=
  match a with
  | Primary => "compose"
  | Environment => "env"
  | Override => "override"
  end.

Definition artifact_file (k : Stack) (a : artifact) : string :=
  match a with
  | Primary => path_join (stack_path k) (_composeFileName k)
  | Environment => path_join (stack_path k) ".env"
  | Override => path_join (stack_path k) (_composeOverrideFileName k)
  end.

(** A container whose status starts with "exited" with another code
    than 0, and one that exited with code 0. *)
Definition exitedNonZero (c : ContainerJson) : bool :=
  JS.startsWith "exited" (JS.trim (cj_Status c))
  && negb (JS.startsWith "exited (0)" (JS.trim (cj_Status c))).

Definition exitedClean (c : ContainerJson) : bool :=
  JS.startsWith "exited (0)" (JS.trim (cj_Status c)).


(** The session name of the stack's compose operations is free. *)
Definition terminal_free (socket : DockgeSocket) (s : State) : Prop :=
  terminalMap (world s) !! getComposeTerminalName (endpoint socket) (name (this s))
  = None.

(** The process that runs [docker <args>] in the stack's directory. *)
Definition docker_in (k : Stack) (args : list string) : Spawn :=
  {| sp_file := "docker"; sp_args := args; sp_cwd := stack_path k |}.

(** The argument vector [getComposeOptions] builds on a given disk. *)
Definition composeArgs (d : gmap string node) (k : Stack)
    (command : string) (extraOptions : list string) : list string :=
  if exists_on d (path_join stacksDir "global.env") then
    if exists_on d (path_join (stack_path k) ".env")
    then "compose" :: "--env-file" :: "./.env" :: "--env-file" :: "../global.env"
           :: command :: extraOptions
    else "compose" :: "--env-file" :: "../global.env" :: command :: extraOptions
  else "compose" :: command :: extraOptions.

(** The state after the listed processes have run and ended. *)
Definition ran (l : list Spawn) (s : State) : State :=
  set_world (fun w => with_spawned (spawned w ++ l) w) s.

(** What an accessor answers: the cached text or else the text of the
    backing file, the empty string when that cannot be read. *)
Definition artifact_content (d : gmap string node) (k : Stack) (a : artifact)
  : string :=
  match fileCache k !! artifact_key a with
  | Some content => content
  | None =>
      match d !! artifact_file k a with
      | Some (File content) => content
      | _ => ""
      end
  end.

(** [found] is the first name of [accepted] that exists in [dir], or the
    [fallback] when none of them exists. *)
Definition first_existing (d : gmap string node) (dir : string)
    (accepted : list string) (fallback found : string) : Prop :=
  (exists before after,
      accepted = before ++ found :: after
      /\ exists_on d (path_join dir found) = true
      /\ Forall (fun f => exists_on d (path_join dir f) = false) before)
  \/ (Forall (fun f => exists_on d (path_join dir f) = false) accepted
      /\ found = fallback).

(** The state after an accessor has run: the answer is cached. *)
Definition accessed (a : artifact) (s : State) : State :=
  match fileCache (this s) !! artifact_key a with
  | Some _ => s
  | None =>
      set_this (fun k =>
        with_fileCache
          (<[artifact_key a := artifact_content (disk (world s)) (this s) a]>
             (fileCache k)) k) s
  end.

(** What [validate] throws, if anything, on a name and the three
    texts. *)
Definition validation_error (nm yaml override env : string) : option exn :=
  if negb (matches_name_pattern nm)
  then Some (ValidationError "Stack name can only contain [a-z][0-9] _ - only")
  else if negb (yaml_ok yaml) then Some YAMLParseError
  else if negb (String.eqb (JS.trim override) "") && negb (yaml_ok override)
       then Some YAMLParseError
  else if invalidEnvFormat env
       then Some (ValidationError "Invalid .env format")
  else None.

(** The state once the stack's directory has been removed. *)
Definition without_dir (s : State) : State :=
  set_world (fun w => with_disk (rm_tree (stack_path (this s)) (disk w)) w) s.

(** *** Sample data of the closed examples *)

Definition web : Stack :=
  {| name := "web"; _status := UNKNOWN;
     _composeFileName := "compose.yaml";
     _composeOverrideFileName := "compose.override.yaml";
     fileCache := ∅ |}.

Definition browser : DockgeSocket := {| endpoint := ""; socket_id := "socket-1" |}.

Definition disk_web : gmap string node :=
  list_to_map [("/opt/stacks", Dir); ("/opt/stacks/web", Dir);
               ("/opt/stacks/web/compose.yaml", File "services: {}")].

Definition disk_global : gmap string node :=
  <["/opt/stacks/global.env" := File "TZ=UTC"]> disk_web.

(** The stack "web" as the editor submits it, with a new primary text. *)
Definition web_edited (yaml : string) : Stack :=
  with_fileCache {["compose" := yaml]} web.

Definition idle (d : gmap string node) : World :=
  {| disk := d; terminalMap := ∅; spawned := [] |}.

Definition web_on (d : gmap string node) : State :=
  {| this := web; world := idle d |}.

(** A stand-in for [JSON.parse] that reads a line as the status text. *)
Definition status_line (line : string) : option ContainerJson :=
  Some {| cj_Name := ""; cj_State := "exited"; cj_Status := line |}.

Definition exits_with (code : Z) (sp : Spawn) : JS.number := JS.Num code.

(** Every command succeeds but [pull]. *)
Definition pull_fails (sp : Spawn) : JS.number :=
  if existsb (String.eqb "pull") (sp_args sp) then JS.Num 1 else JS.Num 0.

(** A stand-in for [yaml.parse] that rejects the unclosed flow mapping. *)
Definition rejects_open_brace (s : string) : bool := negb (String.eqb s "{").

Definition no_output (composeName : string) : option string := None.

Definition three_clean (composeName : string) : option string :=
  Some ("exited (0) 2 hours ago" ++ String LF "exited (0) 2 hours ago"
        ++ String LF "exited (0) 3 hours ago" ++ String LF "")%string.

Definition one_failed (composeName : string) : option string :=
  Some ("exited (0) 2 hours ago" ++ String LF "exited (137) 2 hours ago"
        ++ String LF "exited (0) 3 hours ago" ++ String LF "")%string.

Definition compose_entry (nm st : string) : StackJson :=
  {| sj_Name := nm; sj_Status := st; sj_ConfigFiles := "" |}.


(** The world in which a pull of "web" is under way. *)
Definition web_pulling : World :=
  {| disk := disk_web;
     terminalMap :=
       {["compose--web" :=
           {| t_spawn := {| sp_file := "docker"; sp_args := ["compose"; "pull"];
                            sp_cwd := "/opt/stacks/web" |};
              t_sockets := ["socket-1"] |}]};
     spawned := [{| sp_file := "docker"; sp_args := ["compose"; "pull"];
                    sp_cwd := "/opt/stacks/web" |}] |}.

(** Every container of the project is up. *)
Definition all_up (composeName : string) : option string :=
  Some ("Up 2 hours" ++ String LF "Up 3 hours" ++ String LF "")%string.

(** *** Further operations of [Stack] *)

Definition start (socket : DockgeSocket) : M JS.number :=
  runComposeCommand socket "up" ["-d"; "--remove-orphans"] "start".

Definition stop (socket : DockgeSocket) : M JS.number :=
  runComposeCommand socket "stop" [] "stop".

Definition restart (socket : DockgeSocket) : M JS.number :=
  runComposeCommand socket "restart" [] "restart".

Definition down (socket : DockgeSocket) : M JS.number :=
  runComposeCommand socket "down" [] "down".

Definition startService (socket : DockgeSocket) (serviceName : string)
  : M JS.number :=
  runComposeCommand socket "up" ["-d"; serviceName]
    ("start service " ++ serviceName).

Definition stopService (socket : DockgeSocket) (serviceName : string)
  : M JS.number :=
  runComposeCommand socket "stop" [serviceName] ("stop service " ++ serviceName).

Definition restartService (socket : DockgeSocket) (serviceName : string)
  : M JS.number :=
  runComposeCommand socket "restart" [serviceName]
    ("restart service " ++ serviceName).

(** [fs.statSync(p).isDirectory()] on a path that exists. *)
Definition is_directory (d : gmap string node) (p : string) : bool :=
  match d !! p with
  | Some Dir => true
  | _ => false
  end.


(** The loop of [composeFileExists]. *)
Fixpoint anyFileExists (d : gmap string node) (dir : string)
    (accepted : list string) : bool :=
  match accepted with
  | [] => false
  | composeFileName :: rest =>
      if exists_on d (path_join dir composeFileName) then true
      else anyFileExists d dir rest
  end.

Definition composeFileExists (d : gmap string node) (dir filename : string) : bool :=
  anyFileExists d (path_join dir filename) acceptedComposeFileNames.

(** [Stack.getStack(server, stackName, skipFSOperations)].  When the
    directory is missing the code looks the name up in the list that
    [getStackList(server, true)] returns; that list is the argument
    [listed]. *)
Definition getStack (listed : gmap string Stack) (d : gmap string node)
    (stackName : string) (skipFSOperations : bool) : result Stack :=
  let dir := path_join stacksDir stackName in
  if negb skipFSOperations
     && (negb (exists_on d dir) || negb (is_directory d dir))
  then match listed !! stackName with
       | Some stack => Ret stack
       | None => Throw (ValidationError ("Stack not found " ++ stackName))
       end
  else Ret (with_status UNKNOWN
              (new_Stack d stackName None None None skipFSOperations)).

(** The loop of [scanStacksDirectory] over the entries of the stacks
    directory; an entry whose [stat] or [getStack] throws is logged and
    skipped. *)
Fixpoint scanLoop (listed : gmap string Stack) (d : gmap string node)
    (filenameList : list string) (stackList : gmap string Stack)
  : gmap string Stack :=
  match filenameList with
  | [] => stackList
  | filename :: rest =>
      match d !! path_join stacksDir filename with
      | None => scanLoop listed d rest stackList
      | Some Dir =>
          if negb (composeFileExists d stacksDir filename)
          then scanLoop listed d rest stackList
          else match getStack listed d filename false with
               | Ret stack =>
                   scanLoop listed d rest
                     (<[filename := with_status CREATED_FILE stack]> stackList)
               | Throw _ => scanLoop listed d rest stackList
               end
      | Some (File _) => scanLoop listed d rest stackList
      end
  end.

(** [readdir] is the answer of [fsAsync.readdir(stacksDir)], [None] when
    it throws. *)
Definition scanStacksDirectory (listed : gmap string Stack)
    (d : gmap string node) (readdir : option (list string))
  : gmap string Stack :=
  match readdir with
  | None => ∅
  | Some filenameList => scanLoop listed d filenameList ∅
  end.

(** The loop of [updateStackStatuses]: a stack object is updated in
    place, a stack that is not in the list yet is constructed and added
    unless it is named "dockge".  An exception leaves the loop; the stack
    added just before stays. *)
Fixpoint updateLoop (d : gmap string node) (composeList : list StackJson)
    (stackList : gmap string Stack) : gmap string Stack :=
  match composeList with
  | [] => stackList
  | composeStack :: rest =>
      match stackList !! sj_Name composeStack with
      | Some stack =>
          match statusConvert composeStack with
          | Ret st =>
              updateLoop d rest
                (<[sj_Name composeStack := with_status st stack]> stackList)
          | Throw _ => stackList
          end
      | None =>
          if String.eqb (sj_Name composeStack) "dockge"
          then updateLoop d rest stackList
          else
            let stack := new_Stack d (sj_Name composeStack) None None None false in
            let stackList1 := <[sj_Name composeStack := stack]> stackList in
            match statusConvert composeStack with
            | Ret st =>
                updateLoop d rest
                  (<[sj_Name composeStack := with_status st stack]> stackList1)
            | Throw _ => stackList1
            end
      end
  end.

Definition updateStackStatuses (d : gmap string node)
    (stackList : gmap string Stack) : gmap string Stack :=
  match composeLs with
  | None => stackList
  | Some composeList => updateLoop d composeList stackList
  end.

(** [Stack.getStackList(server, useCacheForManaged)].  [managed] is the
    static [managedStackList]; the answer is the list returned and the
    new value of the cache.  The cache is a copy of the scanned map that
    shares its stack objects with it, so it sees the statuses written
    afterwards and not the stacks added afterwards. *)
Definition getStackList (listed managed : gmap string Stack)
    (d : gmap string node) (readdir : option (list string))
    (useCacheForManaged : bool) : gmap string Stack * gmap string Stack :=
  if useCacheForManaged && negb (Nat.eqb (size managed) 0)
  then (managed, managed)
  else
    let scanned := scanStacksDirectory listed d readdir in
    let stackList := updateStackStatuses d scanned in
    (stackList, filter (fun kv => is_Some (scanned !! fst kv)) stackList).

(** The lifecycle operations of a stack, to state what all of them
    share. *)
Inductive operation : Type :=
| Deploy
| Start
| Stop
| Restart
| Down
| Update
| Delete (options : DeleteOptions)
| ForceDelete
| StartService (serviceName : string)
| StopService (serviceName : string)
| RestartService (serviceName : string).

Definition perform (op : operation) (socket : DockgeSocket) : M JS.number :=
  match op with
  | Deploy => deploy socket
  | Start => start socket
  | Stop => stop socket
  | Restart => restart socket
  | Down => down socket
  | Update => update socket
  | Delete options => delete_stack socket options
  | ForceDelete => forceDelete socket
  | StartService serviceName => startService socket serviceName
  | StopService serviceName => stopService socket serviceName
  | RestartService serviceName => restartService socket serviceName
  end.

Definition removes_files (op : operation) : bool :=
  match op with
  | Delete options => deleteStackFiles options
  | ForceDelete => true
  | _ => false
  end.



(** The state after a successful [validate]: the three texts are cached. *)
Definition validated (s : State) : State :=
  accessed Environment (accessed Override (accessed Primary s)).

(** The stack object that the directory scan builds for a directory, and
    the test that decides whether an entry of the stacks directory is
    taken. *)
Definition fresh_stack (d : gmap string node) (nm : string) : Stack :=
  new_Stack d nm None None None false.

Definition scanned_stack (d : gmap string node) (nm : string) : Stack :=
  with_status CREATED_FILE (fresh_stack d nm).

Definition is_scanned (d : gmap string node) (filenameList : list string)
    (nm : string) : bool :=
  existsb (String.eqb nm) filenameList
  && is_directory d (path_join stacksDir nm)
  && composeFileExists d stacksDir nm.

(** Every stack of the list was constructed for its key from the disk
    and differs from the fresh object in its status only. *)
Definition constructed_from (d : gmap string node)
    (stackList : gmap string Stack) : Prop :=
  forall n k, stackList !! n = Some k ->
              exists st, k = with_status st (fresh_stack d n).

(** [ps()], over the outcome of the child process: its standard output,
    or [None] when the process fails.  [None] as an answer stands for an
    exception. *)
Definition ps (res : option string) : option (list ContainerJson) :=
  match res with
  | None => None
  | Some stdout =>
      if String.eqb (JS.trim stdout) "" then Some []
      else parseDockerJsonLines stdout
  end.

(** The entry that [getServiceStatusList] pushes for a container:
    [{ status: container.Health || container.State, name: container.Name }].
    [Health] reads the field of that name, the empty string when it is
    missing. *)
Definition service_entry (Health : ContainerJson -> string) (c : ContainerJson)
  : string * string :=
  (if String.eqb (Health c) "" then cj_State c else Health c, cj_Name c).

(** The loop of [getServiceStatusList]; [Service] reads the field of
    that name. *)
Fixpoint serviceLoop (Service Health : ContainerJson -> string)
    (containers : list ContainerJson)
    (statusList : gmap string (list (string * string)))
  : gmap string (list (string * string)) :=
  match containers with
  | [] => statusList
  | container :: rest =>
      let statusList1 :=
        match statusList !! Service container with
        | None => <[Service container := []]> statusList
        | Some _ => statusList
        end in
      serviceLoop Service Health rest
        (alter (fun l => l ++ [service_entry Health container])
           (Service container) statusList1)
  end.

(** [getServiceStatusList()]: an exception of [ps()] is logged and the
    map is returned as it is then, empty. *)
Definition getServiceStatusList (Service Health : ContainerJson -> string)
    (res : option string) : gmap string (list (string * string)) :=
  match ps res with
  | Some containers => serviceLoop Service Health containers ∅
  | None => ∅
  end.

(** The entries of the containers of one service, in the order of the
    list. *)
Definition entries_of (Service Health : ContainerJson -> string)
    (serviceName : string) (containers : list ContainerJson)
  : list (string * string) :=
  map (service_entry Health)
    (List.filter (fun c => String.eqb (Service c) serviceName) containers).

(** ** Facts about the string primitives *)

Lemma split_not_nil (c : ascii) (s : string) : JS.split c s <> [].
Proof.
  destruct s as [|a s]; simpl; [discriminate|].
  destruct (Ascii.eqb a c); [discriminate|].
  destruct (JS.split c s); discriminate.
Qed.

Lemma includes_char_cons (c a : ascii) (s : string) :
  JS.includes (String c EmptyString) (String a s)
  = Ascii.eqb a c || JS.includes (String c EmptyString) s.
Proof.
  simpl. rewrite andb_true_r. now rewrite (Ascii.eqb_sym c a).
Qed.

(** Without the separator, [split] returns the string itself. *)
Lemma split_without (c : ascii) (s : string) :
  JS.includes (String c EmptyString) s = false -> JS.split c s = [s].
Proof.
  induction s as [|a s IH]; intros H; [reflexivity|].
  rewrite includes_char_cons in H. apply orb_false_iff in H as [Ha Hs].
  simpl. rewrite Ha, (IH Hs). reflexivity.
Qed.

(** With the separator, [split] returns at least two pieces. *)
Lemma split_with (c : ascii) (s : string) :
  JS.includes (String c EmptyString) s = true ->
  exists x y rest, JS.split c s = x :: y :: rest.
Proof.
  induction s as [|a s IH]; intros H; [discriminate|].
  rewrite includes_char_cons in H. simpl.
  destruct (Ascii.eqb a c) eqn:Ha.
  - destruct (JS.split c s) as [|y rest] eqn:E; [now apply split_not_nil in E|].
    now exists EmptyString, y, rest.
  - simpl in H. destruct (IH H) as (x & y & rest & E). rewrite E.
    now exists (String a x), y, rest.
Qed.



(** ** The status classifier *)

Example expected_exited_3 :
  expectedContainersExited (compose_entry "web" "exited(3)") = Ret (JS.Num 3).
Proof. reflexivity. Qed.

Example expected_first_group :
  expectedContainersExited (compose_entry "web" "exited(1), running(3)")
  = Ret (JS.Num 1).
Proof. reflexivity. Qed.

Lemma startsWith_shorter (p q s : string) :
  JS.startsWith (p ++ q) s = true -> JS.startsWith p s = true.
Proof.
  revert s. induction p as [|a p IH]; intros s H; [reflexivity|].
  destruct s as [|b s]; [discriminate|].
  cbn [String.append JS.startsWith] in *.
  apply andb_prop in H as [Hab H].
  rewrite Hab. cbn [andb]. now apply IH.
Qed.

Lemma clean_is_exited (st : string) :
  JS.startsWith "exited (0)" st = true -> JS.startsWith "exited" st = true.
Proof. apply (startsWith_shorter "exited" " (0)"). Qed.

Lemma exitLoop_acc (l : list ContainerJson) (n : Z) :
  exitLoop l n =
  if existsb exitedNonZero l then None
  else Some (n + Z.of_nat (length (List.filter exitedClean l)))%Z.
Proof.
  revert n. induction l as [|c l IH]; intros n.
  - cbn [exitLoop existsb List.filter length]. f_equal. lia.
  - cbn [exitLoop existsb List.filter]. unfold exitedNonZero at 1, exitedClean at 1.
    destruct (JS.startsWith "exited (0)" (JS.trim (cj_Status c))) eqn:Hz.
    + rewrite (clean_is_exited _ Hz). cbn [andb negb orb]. rewrite IH.
      destruct (existsb exitedNonZero l); [reflexivity|].
      cbn [length]. f_equal. lia.
    + destruct (JS.startsWith "exited" (JS.trim (cj_Status c))) eqn:He;
        cbn [andb negb orb]; [reflexivity|]. apply IH.
Qed.


Lemma running_not_created (st : string) :
  JS.startsWith "running" st = true -> JS.startsWith "created" st = false.
Proof.
  destruct st as [|a st]; [discriminate|].
  cbn [JS.startsWith]. intros H. apply andb_prop in H as [Ha _].
  apply Ascii.eqb_eq in Ha. subst a. reflexivity.
Qed.

(** C2 (as amended).  [statusConvert] maps a status that starts with
    "created" to [CREATED_STACK]; a status that starts with "running"
    and does not contain "exited" to [RUNNING], whatever the containers
    report; a status of none of the three shapes to [UNKNOWN]; and a
    status that starts with "running" but contains "exited" is handed to
    [isComposeExitClean]. *)
Theorem statusConvert_shapes (composeStack : StackJson) :
  (JS.startsWith "created" (sj_Status composeStack) = true ->
   statusConvert composeStack = Ret CREATED_STACK)
  /\ (JS.startsWith "running" (sj_Status composeStack) = true ->
      JS.includes "exited" (sj_Status composeStack) = false ->
      statusConvert composeStack = Ret RUNNING)
  /\ (JS.startsWith "running" (sj_Status composeStack) = true ->
      JS.includes "exited" (sj_Status composeStack) = true ->
      statusConvert composeStack = isComposeExitClean composeStack)
  /\ (JS.startsWith "created" (sj_Status composeStack) = false ->
      JS.includes "exited" (sj_Status composeStack) = false ->
      JS.startsWith "running" (sj_Status composeStack) = false ->
      statusConvert composeStack = Ret UNKNOWN).
Proof.
  unfold statusConvert. repeat split.
  - intros ->. reflexivity.
  - intros Hr He. now rewrite (running_not_created _ Hr), He, Hr.
  - intros Hr He. now rewrite (running_not_created _ Hr), He.
  - intros -> -> ->. reflexivity.
Qed.

(** ** Artifact file names and contents *)

Lemma findFileName_first (d : gmap string node) (dir : string)
    (accepted : list string) (fallback : string) :
  first_existing d dir accepted fallback (findFileName d dir accepted fallback).
Proof.
  induction accepted as [|f rest IH]; cbn [findFileName].
  - right. split; [constructor | reflexivity].
  - destruct (exists_on d (path_join dir f)) eqn:Hf.
    + left. exists [], rest. repeat split; [exact Hf | constructor].
    + destruct IH as [(before & after & Heq & Hex & Hno) | [Hno Hfb]].
      * left. exists (f :: before), after. rewrite Heq at 1.
        repeat split; [exact Hex | now constructor].
      * right. split; [now constructor | exact Hfb].
Qed.

(** C10.  File name discovery returns the first accepted file name that
    exists in the project directory, and "compose.yaml" or
    "compose.override.yaml" when none of the accepted names exists. *)
Theorem findComposeFileName_first_existing (d : gmap string node) (k : Stack) :
  first_existing d (stack_path k) acceptedComposeFileNames "compose.yaml"
    (findComposeFileName d k)
  /\ first_existing d (stack_path k) acceptedComposeOverrideFileNames
       "compose.override.yaml" (findComposeOverrideFileName d k).
Proof. split; apply findFileName_first. Qed.

Lemma getFileContent_eq (filePath cacheKey defaultValue : string) (s : State) :
  getFileContent filePath cacheKey defaultValue s =
  match fileCache (this s) !! cacheKey with
  | Some content => (Ret content, s)
  | None =>
      let content :=
        match disk (world s) !! filePath with
        | Some (File c) => c
        | _ => defaultValue
        end in
      (Ret content,
       set_this (fun k => with_fileCache (<[cacheKey := content]> (fileCache k)) k) s)
  end.
Proof.
  unfold getFileContent, bind, gets. cbn beta iota.
  destruct (fileCache (this s) !! cacheKey) as [content|] eqn:Hc.
  - unfold ret. cbn beta iota. now rewrite Hc.
  - unfold try_catch, bind, readFileSync, cache_set, modify.
    destruct (disk (world s) !! filePath) as [[c|]|];
      cbn; now rewrite lookup_insert_eq.
Qed.

Lemma accessor_eq (a : artifact) (s : State) :
  accessor a s
  = (Ret (artifact_content (disk (world s)) (this s) a), accessed a s).
Proof.
  unfold accessed, artifact_content.
  destruct a; unfold accessor, composeYAML, composeENV, composeOverrideYAML,
    bind, path, gets; cbn beta iota; rewrite getFileContent_eq;
    cbn [artifact_key artifact_file];
    destruct (fileCache (this s) !! _); reflexivity.
Qed.

Lemma accessed_world (a : artifact) (s : State) : world (accessed a s) = world s.
Proof. unfold accessed. now destruct (fileCache (this s) !! artifact_key a). Qed.

Lemma accessed_cached (a : artifact) (s : State) :
  fileCache (this (accessed a s)) !! artifact_key a
  = Some (artifact_content (disk (world s)) (this s) a).
Proof.
  unfold accessed, artifact_content.
  destruct (fileCache (this s) !! artifact_key a) eqn:Hc; [exact Hc|].
  cbn. apply lookup_insert_eq.
Qed.

Lemma accessor_hit (a : artifact) (s : State) (v : string) :
  fileCache (this s) !! artifact_key a = Some v -> accessor a s = (Ret v, s).
Proof.
  intros Hc. rewrite accessor_eq. unfold artifact_content, accessed.
  now rewrite Hc.
Qed.

Lemma bind_Ret_inv {A B} (m : M A) (k : A -> M B) (s s2 : State) (b : B) :
  bind m k s = (Ret b, s2) ->
  exists a s1, m s = (Ret a, s1) /\ k a s1 = (Ret b, s2).
Proof.
  unfold bind. destruct (m s) as [[a|e] s1]; intros H; [eauto | discriminate].
Qed.

Lemma writeStackFiles_clears (s1 s2 : State) :
  writeStackFiles s1 = (Ret tt, s2) -> fileCache (this s2) = ∅.
Proof.
  unfold writeStackFiles. intros H.
  repeat (apply bind_Ret_inv in H as (? & ? & _ & H)).
  unfold modify in H. injection H as <-. reflexivity.
Qed.

(** C9.  The accessors [composeYAML], [composeENV] and
    [composeOverrideYAML] never raise.  On a cache miss they answer the
    text of the backing file, and the empty string when the file cannot
    be read; the answer is cached, so a later access returns the same
    string whatever has become of the disk, until [writeStackFiles]
    clears the cache. *)
Theorem accessor_never_raises (a : artifact) (s : State) :
  exists v s',
    accessor a s = (Ret v, s')
    /\ world s' = world s
    /\ (fileCache (this s) !! artifact_key a = None ->
        (forall c, disk (world s) !! artifact_file (this s) a = Some (File c) -> v = c)
        /\ ((forall c, disk (world s) !! artifact_file (this s) a <> Some (File c)) ->
            v = ""))
    /\ (forall w, accessor a {| this := this s'; world := w |}
                  = (Ret v, {| this := this s'; world := w |}))
    /\ (forall s1 s2, writeStackFiles s1 = (Ret tt, s2) ->
                      fileCache (this s2) = ∅).
Proof.
  exists (artifact_content (disk (world s)) (this s) a), (accessed a s).
  split; [apply accessor_eq|]. split; [apply accessed_world|].
  split; [|split; [|apply writeStackFiles_clears]].
  - intros Hmiss. unfold artifact_content. rewrite Hmiss. split.
    + now intros c ->.
    + intros Hno. destruct (disk (world s) !! artifact_file (this s) a) as [[c|]|];
        [now destruct (Hno c) | reflexivity | reflexivity].
  - intros w. apply accessor_hit. cbn [this]. apply accessed_cached.
Qed.

(** ** Validation of the environment file *)

Lemma length_pos_nonempty (c : string) :
  Nat.ltb 0 (String.length c) = true <-> c <> EmptyString.
Proof.
  destruct c; cbn; split; intros H; try congruence; try discriminate; auto.
Qed.

Lemma invalidEnvFormat_iff (content : string) :
  invalidEnvFormat content = true
  <-> JS.includes (String LF EmptyString) content = false
      /\ content <> EmptyString
      /\ JS.includes "=" content = false.
Proof.
  unfold invalidEnvFormat.
  destruct (JS.includes (String LF EmptyString) content) eqn:Hlf.
  - destruct (split_with LF content Hlf) as (x & y & rest & ->).
    split; [discriminate | intros [? _]; discriminate].
  - rewrite (split_without LF content Hlf).
    rewrite andb_true_iff, negb_true_iff, length_pos_nonempty.
    split; [intros [H1 H2] | intros (_ & H1 & H2)]; auto.
Qed.

(** C8.  [validateEnvFormat] raises its [ValidationError] if and only if
    the content of the environment file has no line feed, is not empty
    and has no "="; it returns normally otherwise, in particular for
    every content with a line feed. *)
Theorem validateEnvFormat_iff (s : State) :
  let content := artifact_content (disk (world s)) (this s) Environment in
  fst (composeENV s) = Ret content
  /\ (fst (validateEnvFormat s) = Throw (ValidationError "Invalid .env format")
      <-> JS.includes (String LF EmptyString) content = false
          /\ content <> EmptyString
          /\ JS.includes "=" content = false)
  /\ (fst (validateEnvFormat s) = Throw (ValidationError "Invalid .env format")
      \/ fst (validateEnvFormat s) = Ret tt)
  /\ (JS.includes (String LF EmptyString) content = true ->
      fst (validateEnvFormat s) = Ret tt).
Proof.
  intros content.
  pose proof (accessor_eq Environment s) as Hacc. cbn [accessor] in Hacc.
  assert (fst (validateEnvFormat s)
          = if invalidEnvFormat content
            then Throw (ValidationError "Invalid .env format") else Ret tt) as Hv.
  { unfold validateEnvFormat, bind. rewrite Hacc. fold content.
    now destruct (invalidEnvFormat content). }
  split; [now rewrite Hacc|]. rewrite Hv.
  pose proof (invalidEnvFormat_iff content) as Hiff.
  destruct (invalidEnvFormat content).
  - split; [|split].
    + split; [intros _; now apply Hiff | reflexivity].
    + now left.
    + intros Hlf. destruct Hiff as [Hiff _]. destruct (Hiff eq_refl) as [H0 _].
      congruence.
  - split; [|split].
    + split; [discriminate | intros H; apply Hiff in H; discriminate].
    + now right.
    + reflexivity.
Qed.

(** ** The compose argument vector *)

Lemma getComposeOptions_eq (command : string) (extraOptions : list string)
    (s : State) :
  getComposeOptions command extraOptions s
  = (Ret (composeArgs (disk (world s)) (this s) command extraOptions), s).
Proof.
  unfold getComposeOptions, composeArgs, bind, existsSync, path, gets, ret.
  cbn beta iota.
  destruct (exists_on (disk (world s)) (path_join stacksDir "global.env"));
    [|reflexivity].
  destruct (exists_on (disk (world s)) (path_join (stack_path (this s)) ".env"));
    reflexivity.
Qed.

(** C7 (as amended).  [getComposeOptions] inserts
    [--env-file ../global.env] after "compose" whenever the shared
    [global.env] exists in the stacks directory, and
    [--env-file ./.env] before it when the project's [.env] exists as
    well; the vector is ["compose", command, ...extraOptions] unchanged
    exactly when there is no shared file. *)
Theorem getComposeOptions_env_files (command : string)
    (extraOptions : list string) (s : State) :
  let shared := exists_on (disk (world s)) (path_join stacksDir "global.env") in
  let local := exists_on (disk (world s)) (path_join (stack_path (this s)) ".env") in
  exists options,
    getComposeOptions command extraOptions s = (Ret options, s)
    /\ (options = "compose" :: command :: extraOptions <-> shared = false)
    /\ (shared = true -> local = false ->
        options = "compose" :: "--env-file" :: "../global.env"
                    :: command :: extraOptions)
    /\ (shared = true -> local = true ->
        options = "compose" :: "--env-file" :: "./.env"
                    :: "--env-file" :: "../global.env"
                    :: command :: extraOptions).
Proof.
  intros shared local.
  exists (composeArgs (disk (world s)) (this s) command extraOptions).
  split; [apply getComposeOptions_eq|].
  unfold composeArgs. fold shared local.
  destruct shared, local; repeat split; try congruence;
    intros H; apply (f_equal (@length string)) in H; cbn in H; lia.
Qed.

(** ** Running a command in a terminal *)

Lemma strict_eq_zero (c : JS.number) :
  JS.strict_eq c (JS.Num 0) = true <-> c = JS.Num 0.
Proof.
  destruct c as [z|]; cbn; [|split; discriminate].
  rewrite Z.eqb_eq. split; [now intros -> | now intros [= ->]].
Qed.

Lemma strict_eq_nonzero (c : JS.number) :
  c <> JS.Num 0 -> JS.strict_eq c (JS.Num 0) = false.
Proof.
  intros H. destruct (JS.strict_eq c (JS.Num 0)) eqn:E; [|reflexivity].
  now apply strict_eq_zero in E.
Qed.

Lemma Terminal_exec_free (socket : option DockgeSocket)
    (terminalName file : string) (args : list string) (cwd : string) (s : State) :
  terminalMap (world s) !! terminalName = None ->
  Terminal_exec socket terminalName file args cwd s
  = (Ret (ptyExit {| sp_file := file; sp_args := args; sp_cwd := cwd |}),
     ran [{| sp_file := file; sp_args := args; sp_cwd := cwd |}] s).
Proof.
  intros Hfree. unfold Terminal_exec, bind, gets. cbn beta iota. rewrite Hfree.
  destruct s as [k [d t sp]]. cbn in Hfree.
  destruct socket as [so|]; cbn; unfold ran, set_world, with_spawned; cbn;
    do 3 f_equal.
  - now rewrite delete_alter_eq, delete_insert_eq, delete_id.
  - now rewrite delete_insert_eq, delete_id.
Qed.

Lemma Terminal_exec_busy (socket : option DockgeSocket)
    (terminalName file : string) (args : list string) (cwd : string)
    (s : State) (t : Terminal) :
  terminalMap (world s) !! terminalName = Some t ->
  Terminal_exec socket terminalName file args cwd s
  = (Throw (Rejection "Another operation is already running, please try again later."),
     s).
Proof.
  intros Hbusy. unfold Terminal_exec, bind, gets. cbn beta iota.
  now rewrite Hbusy.
Qed.

Lemma runTerminalExec_free (socket : DockgeSocket) (command : string)
    (args : list string) (actionDescription : string) (s : State) :
  terminal_free socket s ->
  runTerminalExec socket command args actionDescription s
  = (if JS.strict_eq (ptyExit {| sp_file := command; sp_args := args;
                                 sp_cwd := stack_path (this s) |}) (JS.Num 0)
     then Ret (JS.Num 0)
     else Throw (Error (getErrorMessage actionDescription)),
     ran [{| sp_file := command; sp_args := args;
             sp_cwd := stack_path (this s) |}] s).
Proof.
  intros Hfree. unfold runTerminalExec, bind, path, gets. cbn beta iota.
  rewrite (Terminal_exec_free _ _ _ _ _ _ Hfree).
  destruct (JS.strict_eq _ (JS.Num 0)) eqn:E; cbn; [|reflexivity].
  apply strict_eq_zero in E. now rewrite E.
Qed.

Lemma runTerminalExec_busy (socket : DockgeSocket) (command : string)
    (args : list string) (actionDescription : string) (s : State) (t : Terminal) :
  terminalMap (world s) !! getComposeTerminalName (endpoint socket) (name (this s))
  = Some t ->
  runTerminalExec socket command args actionDescription s
  = (Throw (Rejection "Another operation is already running, please try again later."),
     s).
Proof.
  intros Hbusy. unfold runTerminalExec, bind, path, gets. cbn beta iota.
  now rewrite (Terminal_exec_busy _ _ _ _ _ _ _ Hbusy).
Qed.

Lemma runComposeCommand_free (socket : DockgeSocket) (command : string)
    (args : list string) (actionDescription : string) (s : State) :
  terminal_free socket s ->
  runComposeCommand socket command args actionDescription s
  = (if JS.strict_eq
          (ptyExit (docker_in (this s)
                      (composeArgs (disk (world s)) (this s) command args)))
          (JS.Num 0)
     then Ret (JS.Num 0)
     else Throw (Error (getErrorMessage actionDescription)),
     ran [docker_in (this s)
            (composeArgs (disk (world s)) (this s) command args)] s).
Proof.
  intros Hfree. unfold runComposeCommand, bind.
  rewrite getComposeOptions_eq. now rewrite runTerminalExec_free.
Qed.

Lemma runComposeCommand_busy (socket : DockgeSocket) (command : string)
    (args : list string) (actionDescription : string) (s : State) (t : Terminal) :
  terminalMap (world s) !! getComposeTerminalName (endpoint socket) (name (this s))
  = Some t ->
  runComposeCommand socket command args actionDescription s
  = (Throw (Rejection "Another operation is already running, please try again later."),
     s).
Proof.
  intros Hbusy. unfold runComposeCommand, bind.
  rewrite getComposeOptions_eq. now rewrite (runTerminalExec_busy _ _ _ _ _ _ Hbusy).
Qed.

(** C3 (as amended).  With no shared environment file and the session
    name free, [deploy] starts [docker compose up -d --remove-orphans]
    in the project's directory and nothing else; exit code 0 resolves
    with 0, and any other exit code throws the error "Failed to deploy,
    please check the terminal output for more information.", which
    names the action and not the session. *)
Theorem deploy_runs_compose_up (socket : DockgeSocket) (s : State) :
  exists_on (disk (world s)) (path_join stacksDir "global.env") = false ->
  terminal_free socket s ->
  let up := {| sp_file := "docker";
               sp_args := ["compose"; "up"; "-d"; "--remove-orphans"];
               sp_cwd := stack_path (this s) |} in
  snd (deploy socket s) = ran [up] s
  /\ spawned (world (snd (deploy socket s))) = spawned (world s) ++ [up]
  /\ (ptyExit up = JS.Num 0 -> fst (deploy socket s) = Ret (JS.Num 0))
  /\ (ptyExit up <> JS.Num 0 ->
      fst (deploy socket s)
      = Throw (Error "Failed to deploy, please check the terminal output for more information.")).
Proof.
  intros Hshared Hfree up. unfold deploy.
  rewrite (runComposeCommand_free _ _ _ _ _ Hfree).
  unfold composeArgs, docker_in. rewrite Hshared. fold up. cbn [fst snd].
  repeat split.
  - intros ->. reflexivity.
  - intros Hne. now rewrite (strict_eq_nonzero _ Hne).
Qed.

(** ** Update *)

(** C4 (as amended).  With the session name free, [update] first pulls;
    only when the pull succeeded is the status refreshed and, only when
    it is then [RUNNING], are the containers recreated and the images
    pruned, in that order.  A step that fails throws the error of that
    step (the exit code is not returned), later steps are not run, and
    the processes already run stay as they are: nothing is undone.
    When nothing fails the result is 0. *)
Theorem update_steps (socket : DockgeSocket) (s : State) :
  terminal_free socket s ->
  let k := this s in
  let d := disk (world s) in
  let pull := docker_in k (composeArgs d k "pull" []) in
  let up := docker_in k (composeArgs d k "up" ["-d"; "--remove-orphans"]) in
  let prune := docker_in k ["image"; "prune"; "--all"; "--force"] in
  let refreshed := default UNKNOWN (getStatusList !! name k) in
  let s1 := set_this (with_status refreshed) (ran [pull] s) in
  (ptyExit pull <> JS.Num 0 ->
   update socket s = (Throw (Error (getErrorMessage "pull")), ran [pull] s))
  /\ (ptyExit pull = JS.Num 0 -> refreshed <> RUNNING ->
      update socket s = (Ret (JS.Num 0), s1))
  /\ (ptyExit pull = JS.Num 0 -> refreshed = RUNNING ->
      ptyExit up <> JS.Num 0 ->
      update socket s = (Throw (Error (getErrorMessage "restart")), ran [up] s1))
  /\ (ptyExit pull = JS.Num 0 -> refreshed = RUNNING ->
      ptyExit up = JS.Num 0 -> ptyExit prune <> JS.Num 0 ->
      update socket s
      = (Throw (Error (getErrorMessage "prune images")), ran [prune] (ran [up] s1)))
  /\ (ptyExit pull = JS.Num 0 -> refreshed = RUNNING ->
      ptyExit up = JS.Num 0 -> ptyExit prune = JS.Num 0 ->
      update socket s = (Ret (JS.Num 0), ran [prune] (ran [up] s1))).
Proof.
  intros Hfree k d pull up prune refreshed s1.
  assert (terminal_free socket s1) as Hfree1 by exact Hfree.
  assert (terminal_free socket (ran [up] s1)) as Hfree2 by exact Hfree.
  assert (update socket s =
          if JS.strict_eq (ptyExit pull) (JS.Num 0) then
            if status_eqb refreshed RUNNING then
              if JS.strict_eq (ptyExit up) (JS.Num 0) then
                (if JS.strict_eq (ptyExit prune) (JS.Num 0)
                 then Ret (JS.Num 0)
                 else Throw (Error (getErrorMessage "prune images")),
                 ran [prune] (ran [up] s1))
              else (Throw (Error (getErrorMessage "restart")), ran [up] s1)
            else (Ret (JS.Num 0), s1)
          else (Throw (Error (getErrorMessage "pull")), ran [pull] s)) as Hrun.
  { unfold update, bind. rewrite (runComposeCommand_free _ _ _ _ _ Hfree).
    fold k d pull.
    destruct (JS.strict_eq (ptyExit pull) (JS.Num 0)); [|reflexivity].
    unfold updateStatus, modify, gets.
    change (set_this _ (ran [pull] s)) with s1.
    change (_status (this s1)) with refreshed.
    destruct (status_eqb refreshed RUNNING); [|reflexivity].
    rewrite (runComposeCommand_free _ _ _ _ _ Hfree1).
    change (docker_in (this s1) (composeArgs (disk (world s1)) (this s1) "up"
                                   ["-d"; "--remove-orphans"])) with up.
    destruct (JS.strict_eq (ptyExit up) (JS.Num 0)); [|reflexivity].
    rewrite (runTerminalExec_free _ _ _ _ _ Hfree2). reflexivity. }
  rewrite Hrun. repeat split.
  - intros H. now rewrite (strict_eq_nonzero _ H).
  - intros -> H. cbn [JS.strict_eq Z.eqb]. now destruct refreshed.
  - intros -> -> H. cbn [JS.strict_eq Z.eqb status_eqb].
    now rewrite (strict_eq_nonzero _ H).
  - intros -> -> -> H. cbn [JS.strict_eq Z.eqb status_eqb].
    now rewrite (strict_eq_nonzero _ H).
  - intros -> -> -> ->. reflexivity.
Qed.

(** ** Deletion *)

Lemma rm_tree_lookup (p k : string) (d : gmap string node) :
  rm_tree p d !! k = if under p k then None else d !! k.
Proof.
  unfold rm_tree. destruct (under p k) eqn:Hu.
  - apply map_lookup_filter_None. destruct (d !! k) as [n|]; [right | now left].
    intros x _. cbn. congruence.
  - destruct (d !! k) as [n|] eqn:Hk.
    + apply map_lookup_filter_Some. split; [exact Hk | exact Hu].
    + apply map_lookup_filter_None. now left.
Qed.

(** C5 (as amended).  With the session name free, [forceDelete] removes
    the project's directory after, and only after, its [down] command
    ended with code 0; [delete] does so only when, in addition,
    [options.deleteStackFiles] is set.  When the command ends with
    another code the directory is left in place and an error is thrown;
    when the session name is taken nothing is run or removed. *)
Theorem delete_removes_directory (socket : DockgeSocket)
    (options : DeleteOptions) (s : State) :
  let k := this s in
  let d := disk (world s) in
  let down := docker_in k (composeArgs d k "down" ["--remove-orphans"]) in
  let down_v := docker_in k (composeArgs d k "down" ["-v"; "--remove-orphans"]) in
  (terminal_free socket s ->
   (ptyExit down = JS.Num 0 ->
    delete_stack socket options s
    = (Ret (JS.Num 0),
       if deleteStackFiles options then without_dir (ran [down] s)
       else ran [down] s))
   /\ (ptyExit down <> JS.Num 0 ->
       delete_stack socket options s
       = (Throw (Error (getErrorMessage ("delete " ++ name k))), ran [down] s))
   /\ (ptyExit down_v = JS.Num 0 ->
       forceDelete socket s = (Ret (JS.Num 0), without_dir (ran [down_v] s)))
   /\ (ptyExit down_v <> JS.Num 0 ->
       forceDelete socket s
       = (Throw (Error (getErrorMessage ("force delete " ++ name k))),
          ran [down_v] s)))
  /\ (forall t,
        terminalMap (world s) !! getComposeTerminalName (endpoint socket) (name k)
        = Some t ->
        fst (delete_stack socket options s)
        = Throw (Rejection "Another operation is already running, please try again later.")
        /\ snd (delete_stack socket options s) = s
        /\ fst (forceDelete socket s)
           = Throw (Rejection "Another operation is already running, please try again later.")
        /\ snd (forceDelete socket s) = s)
  /\ (forall l, disk (world (ran l s)) = d)
  /\ (forall l p, under (stack_path k) p = true ->
                  exists_on (disk (world (without_dir (ran l s)))) p = false)
  /\ (forall l p, under (stack_path k) p = false ->
                  disk (world (without_dir (ran l s))) !! p = d !! p).
Proof.
  intros k d down down_v. split; [|split; [|split; [|split]]].
  - intros Hfree.
    assert (delete_stack socket options s =
            if JS.strict_eq (ptyExit down) (JS.Num 0)
            then (Ret (JS.Num 0),
                  if deleteStackFiles options then without_dir (ran [down] s)
                  else ran [down] s)
            else (Throw (Error (getErrorMessage ("delete " ++ name k))),
                  ran [down] s)) as Hdel.
    { unfold delete_stack, bind, gets. cbn beta iota.
      rewrite (runComposeCommand_free _ _ _ _ _ Hfree). fold k d down.
      destruct (JS.strict_eq (ptyExit down) (JS.Num 0)); [|reflexivity].
      destruct (deleteStackFiles options); reflexivity. }
    assert (forceDelete socket s =
            if JS.strict_eq (ptyExit down_v) (JS.Num 0)
            then (Ret (JS.Num 0), without_dir (ran [down_v] s))
            else (Throw (Error (getErrorMessage ("force delete " ++ name k))),
                  ran [down_v] s)) as Hforce.
    { unfold forceDelete, bind, path, gets. cbn beta iota.
      rewrite getComposeOptions_eq. cbn beta iota.
      rewrite (Terminal_exec_free _ _ _ _ _ _ Hfree).
      change {| sp_file := "docker";
                sp_args := composeArgs (disk (world s)) (this s) "down"
                             ["-v"; "--remove-orphans"];
                sp_cwd := stack_path (this s) |} with down_v.
      destruct (JS.strict_eq (ptyExit down_v) (JS.Num 0)) eqn:E; [|reflexivity].
      apply strict_eq_zero in E. rewrite E. reflexivity. }
    rewrite Hdel, Hforce. repeat split.
    + intros ->. reflexivity.
    + intros H. now rewrite (strict_eq_nonzero _ H).
    + intros ->. reflexivity.
    + intros H. now rewrite (strict_eq_nonzero _ H).
  - intros t Hbusy. unfold delete_stack, forceDelete, bind, path, gets.
    cbn beta iota.
    rewrite (runComposeCommand_busy _ _ _ _ _ _ Hbusy).
    rewrite getComposeOptions_eq. cbn beta iota.
    rewrite (Terminal_exec_busy _ _ _ _ _ _ _ Hbusy). now repeat split.
  - reflexivity.
  - intros l p Hp.
    change (disk (world (without_dir (ran l s)))) with (rm_tree (stack_path k) d).
    unfold exists_on. now rewrite rm_tree_lookup, Hp.
  - intros l p Hp.
    change (disk (world (without_dir (ran l s)))) with (rm_tree (stack_path k) d).
    now rewrite rm_tree_lookup, Hp.
Qed.

(** ** Saving *)

Lemma content_after_access (a b : artifact) (s : State) :
  artifact_content (disk (world (accessed b s))) (this (accessed b s)) a
  = artifact_content (disk (world s)) (this s) a.
Proof.
  unfold accessed.
  destruct (fileCache (this s) !! artifact_key b) eqn:Hb; [reflexivity|].
  unfold artifact_content at 1. cbn [this world set_this with_fileCache fileCache].
  assert (a = b \/ artifact_key b <> artifact_key a) as [->|Hne]
    by (destruct a, b; cbn; (now left) || (right; discriminate)).
  - now rewrite lookup_insert_eq.
  - rewrite lookup_insert_ne by exact Hne.
    unfold artifact_content. destruct a; reflexivity.
Qed.

Lemma validateEnvFormat_eq (s : State) :
  validateEnvFormat s
  = (if invalidEnvFormat (artifact_content (disk (world s)) (this s) Environment)
     then Throw (ValidationError "Invalid .env format") else Ret tt,
     accessed Environment s).
Proof.
  unfold validateEnvFormat, bind.
  change (composeENV s) with (accessor Environment s). rewrite accessor_eq.
  now destruct (invalidEnvFormat _).
Qed.

Lemma trim_empty_string : JS.trim EmptyString = EmptyString.
Proof. reflexivity. Qed.

Lemma validate_eq (s : State) :
  exists s',
    validate s
    = (match validation_error (name (this s))
               (artifact_content (disk (world s)) (this s) Primary)
               (artifact_content (disk (world s)) (this s) Override)
               (artifact_content (disk (world s)) (this s) Environment) with
       | Some e => Throw e
       | None => Ret tt
       end, s')
    /\ world s' = world s.
Proof.
  unfold validate, validation_error, bind, gets. cbn beta iota.
  destruct (matches_name_pattern (name (this s))); cbn [negb];
    [|now exists s].
  change (composeYAML s) with (accessor Primary s). rewrite accessor_eq.
  set (y := artifact_content (disk (world s)) (this s) Primary).
  set (o := artifact_content (disk (world s)) (this s) Override).
  set (env := artifact_content (disk (world s)) (this s) Environment).
  set (s1 := accessed Primary s).
  unfold yaml_parse at 1.
  destruct (yaml_ok y); cbn [negb ret throw];
    [|exists s1; split; [reflexivity | apply accessed_world]].
  change (composeOverrideYAML s1) with (accessor Override s1).
  rewrite accessor_eq. unfold s1 at 1 2. rewrite content_after_access. fold o s1.
  set (s2 := accessed Override s1).
  assert (world s2 = world s) as Hw2
    by (unfold s2, s1; now rewrite !accessed_world).
  assert (accessor Override s2 = (Ret o, s2)) as Hhit.
  { apply accessor_hit. unfold s2. rewrite accessed_cached.
    unfold s1. now rewrite content_after_access. }
  assert (validateEnvFormat s2
          = (if invalidEnvFormat env
             then Throw (ValidationError "Invalid .env format") else Ret tt,
             accessed Environment s2)) as Henv.
  { rewrite validateEnvFormat_eq. unfold s2, s1.
    now rewrite !content_after_access. }
  assert (world (accessed Environment s2) = world s) as Hw3
    by now rewrite accessed_world.
  destruct (String.eqb o EmptyString) eqn:Ho; cbn [negb andb].
  - apply String.eqb_eq in Ho. rewrite Ho, trim_empty_string.
    cbn [String.eqb negb andb]. unfold ret at 1. rewrite Henv.
    exists (accessed Environment s2). split; [|exact Hw3].
    now destruct (invalidEnvFormat env).
  - change (composeOverrideYAML s2) with (accessor Override s2). rewrite Hhit.
    destruct (String.eqb (JS.trim o) EmptyString); cbn [negb andb].
    + unfold ret at 1. rewrite Henv.
      exists (accessed Environment s2). split; [|exact Hw3].
      now destruct (invalidEnvFormat env).
    + change (composeOverrideYAML s2) with (accessor Override s2).
      rewrite Hhit. unfold yaml_parse.
      destruct (yaml_ok o); cbn [negb ret throw].
      * rewrite Henv. exists (accessed Environment s2). split; [|exact Hw3].
        now destruct (invalidEnvFormat env).
      * now exists s2.
Qed.

(** C6 (as amended).  [save] validates before it touches the disk: a
    malformed name or environment file raises [ValidationError], a
    primary or override text that does not parse raises the parser's
    own error, and in each case the world (the files and directories
    included) is as before; [validate] returns normally only when none
    of the four checks fails. *)
Theorem save_validates_first (isAdd : bool) (s : State) :
  exists s',
    validate s
    = (match validation_error (name (this s))
               (artifact_content (disk (world s)) (this s) Primary)
               (artifact_content (disk (world s)) (this s) Override)
               (artifact_content (disk (world s)) (this s) Environment) with
       | Some e => Throw e
       | None => Ret tt
       end, s')
    /\ world s' = world s
    /\ (forall e,
          validation_error (name (this s))
            (artifact_content (disk (world s)) (this s) Primary)
            (artifact_content (disk (world s)) (this s) Override)
            (artifact_content (disk (world s)) (this s) Environment) = Some e ->
          save isAdd s = (Throw e, s')).
Proof.
  destruct (validate_eq s) as (s' & Hv & Hw).
  exists s'. split; [exact Hv|]. split; [exact Hw|].
  intros e He. rewrite He in Hv. unfold save, bind. now rewrite Hv.
Qed.

(** ** What every lifecycle operation keeps *)

Lemma Terminal_exec_cases (socket : option DockgeSocket)
    (terminalName file : string) (args : list string) (cwd : string) (s : State) :
  Terminal_exec socket terminalName file args cwd s
  = match terminalMap (world s) !! terminalName with
    | Some _ =>
        (Throw (Rejection "Another operation is already running, please try again later."),
         s)
    | None =>
        (Ret (ptyExit {| sp_file := file; sp_args := args; sp_cwd := cwd |}),
         ran [{| sp_file := file; sp_args := args; sp_cwd := cwd |}] s)
    end.
Proof.
  destruct (terminalMap (world s) !! terminalName) as [t|] eqn:E.
  - now apply Terminal_exec_busy with t.
  - now apply Terminal_exec_free.
Qed.

Lemma runTerminalExec_cases (socket : DockgeSocket) (command : string)
    (args : list string) (actionDescription : string) (s : State) :
  runTerminalExec socket command args actionDescription s
  = match terminalMap (world s)
            !! getComposeTerminalName (endpoint socket) (name (this s)) with
    | Some _ =>
        (Throw (Rejection "Another operation is already running, please try again later."),
         s)
    | None =>
        (if JS.strict_eq (ptyExit {| sp_file := command; sp_args := args;
                                     sp_cwd := stack_path (this s) |}) (JS.Num 0)
         then Ret (JS.Num 0)
         else Throw (Error (getErrorMessage actionDescription)),
         ran [{| sp_file := command; sp_args := args;
                 sp_cwd := stack_path (this s) |}] s)
    end.
Proof.
  destruct (terminalMap (world s)
              !! getComposeTerminalName (endpoint socket) (name (this s)))
    as [t|] eqn:E.
  - now apply runTerminalExec_busy with t.
  - now apply runTerminalExec_free.
Qed.

Lemma runComposeCommand_cases (socket : DockgeSocket) (command : string)
    (args : list string) (actionDescription : string) (s : State) :
  runComposeCommand socket command args actionDescription s
  = runTerminalExec socket "docker"
      (composeArgs (disk (world s)) (this s) command args) actionDescription s.
Proof. unfold runComposeCommand, bind. now rewrite getComposeOptions_eq. Qed.

Lemma runTerminalExec_zero (socket : DockgeSocket) (command : string)
    (args : list string) (actionDescription : string) (s s' : State)
    (c : JS.number) :
  runTerminalExec socket command args actionDescription s = (Ret c, s') ->
  c = JS.Num 0.
Proof.
  rewrite runTerminalExec_cases.
  destruct (terminalMap (world s) !! _); [discriminate|].
  destruct (JS.strict_eq _ (JS.Num 0)); [|discriminate].
  now intros [= <- _].
Qed.

Lemma runComposeCommand_zero (socket : DockgeSocket) (command : string)
    (args : list string) (actionDescription : string) (s s' : State)
    (c : JS.number) :
  runComposeCommand socket command args actionDescription s = (Ret c, s') ->
  c = JS.Num 0.
Proof. rewrite runComposeCommand_cases. apply runTerminalExec_zero. Qed.

Ltac bind_inv H :=
  let a := fresh "a" in
  let s1 := fresh "s1" in
  let Ha := fresh "Ha" in
  apply bind_Ret_inv in H as (a & s1 & Ha & H).

(** X1.  A lifecycle operation that returns, returns 0: a process that
    ends with another code, or with no code at all, makes the operation
    throw. *)
Theorem perform_returns_zero (op : operation) (socket : DockgeSocket)
    (s s' : State) (c : JS.number) :
  perform op socket s = (Ret c, s') -> c = JS.Num 0.
Proof.
  destruct op; cbn [perform];
    try (unfold deploy, start, stop, restart, down, startService, stopService,
           restartService; apply runComposeCommand_zero).
  - (* update *)
    unfold update. intros H. bind_inv H. apply runComposeCommand_zero in Ha.
    subst a. bind_inv H. bind_inv H.
    destruct (status_eqb a0 RUNNING).
    + bind_inv H. now apply runTerminalExec_zero in H.
    + now injection H as <- _.
  - (* delete *)
    unfold delete_stack. intros H. bind_inv H. bind_inv H.
    apply runComposeCommand_zero in Ha0. subst a0. bind_inv H.
    now injection H as <- _.
  - (* forceDelete *)
    unfold forceDelete. intros H. do 4 bind_inv H.
    destruct (JS.strict_eq a2 (JS.Num 0)) eqn:Hz; cbn [negb] in H.
    + apply strict_eq_zero in Hz. subst a2. do 2 bind_inv H.
      now injection H as <- _.
    + bind_inv H. discriminate.
Qed.

Lemma update_busy (socket : DockgeSocket) (s : State) (t : Terminal) :
  terminalMap (world s) !! getComposeTerminalName (endpoint socket) (name (this s))
  = Some t ->
  update socket s
  = (Throw (Rejection "Another operation is already running, please try again later."),
     s).
Proof.
  intros Hbusy. unfold update, bind.
  now rewrite (runComposeCommand_busy _ _ _ _ _ _ Hbusy).
Qed.

Lemma delete_stack_busy (socket : DockgeSocket) (options : DeleteOptions)
    (s : State) (t : Terminal) :
  terminalMap (world s) !! getComposeTerminalName (endpoint socket) (name (this s))
  = Some t ->
  delete_stack socket options s
  = (Throw (Rejection "Another operation is already running, please try again later."),
     s).
Proof.
  intros Hbusy. unfold delete_stack, bind, gets. cbn beta iota.
  now rewrite (runComposeCommand_busy _ _ _ _ _ _ Hbusy).
Qed.

Lemma forceDelete_busy (socket : DockgeSocket) (s : State) (t : Terminal) :
  terminalMap (world s) !! getComposeTerminalName (endpoint socket) (name (this s))
  = Some t ->
  forceDelete socket s
  = (Throw (Rejection "Another operation is already running, please try again later."),
     s).
Proof.
  intros Hbusy. unfold forceDelete, bind, path, gets. cbn beta iota.
  rewrite getComposeOptions_eq. cbn beta iota.
  now rewrite (Terminal_exec_busy _ _ _ _ _ _ _ Hbusy).
Qed.

(** X2.  While a terminal is registered under the stack's session name,
    every lifecycle operation is rejected with "Another operation is
    already running, please try again later." and changes nothing: no
    process is started, no file removed, no status refreshed. *)
Theorem perform_busy (op : operation) (socket : DockgeSocket) (s : State)
    (t : Terminal) :
  terminalMap (world s) !! getComposeTerminalName (endpoint socket) (name (this s))
  = Some t ->
  perform op socket s
  = (Throw (Rejection "Another operation is already running, please try again later."),
     s).
Proof.
  intros Hbusy. destruct op; cbn [perform];
    try (unfold deploy, start, stop, restart, down, startService, stopService,
           restartService; now apply runComposeCommand_busy with t).
  - now apply update_busy with t.
  - now apply delete_stack_busy with t.
  - now apply forceDelete_busy with t.
Qed.

Lemma update_free (socket : DockgeSocket) (s : State) :
  terminal_free socket s ->
  let k := this s in
  let d := disk (world s) in
  let pull := docker_in k (composeArgs d k "pull" []) in
  let up := docker_in k (composeArgs d k "up" ["-d"; "--remove-orphans"]) in
  let prune := docker_in k ["image"; "prune"; "--all"; "--force"] in
  let refreshed := default UNKNOWN (getStatusList !! name k) in
  let s1 := set_this (with_status refreshed) (ran [pull] s) in
  update socket s =
  if JS.strict_eq (ptyExit pull) (JS.Num 0) then
    if status_eqb refreshed RUNNING then
      if JS.strict_eq (ptyExit up) (JS.Num 0) then
        (if JS.strict_eq (ptyExit prune) (JS.Num 0)
         then Ret (JS.Num 0)
         else Throw (Error (getErrorMessage "prune images")),
         ran [prune] (ran [up] s1))
      else (Throw (Error (getErrorMessage "restart")), ran [up] s1)
    else (Ret (JS.Num 0), s1)
  else (Throw (Error (getErrorMessage "pull")), ran [pull] s).
Proof.
  intros Hfree k d pull up prune refreshed s1.
  assert (terminal_free socket s1) as Hfree1 by exact Hfree.
  assert (terminal_free socket (ran [up] s1)) as Hfree2 by exact Hfree.
  unfold update, bind. rewrite (runComposeCommand_free _ _ _ _ _ Hfree).
  fold k d pull.
  destruct (JS.strict_eq (ptyExit pull) (JS.Num 0)); [|reflexivity].
  unfold updateStatus, modify, gets.
  change (set_this _ (ran [pull] s)) with s1.
  change (_status (this s1)) with refreshed.
  destruct (status_eqb refreshed RUNNING); [|reflexivity].
  rewrite (runComposeCommand_free _ _ _ _ _ Hfree1).
  change (docker_in (this s1) (composeArgs (disk (world s1)) (this s1) "up"
                                 ["-d"; "--remove-orphans"])) with up.
  destruct (JS.strict_eq (ptyExit up) (JS.Num 0)); [|reflexivity].
  rewrite (runTerminalExec_free _ _ _ _ _ Hfree2). reflexivity.
Qed.

Lemma delete_stack_free (socket : DockgeSocket) (options : DeleteOptions)
    (s : State) :
  terminal_free socket s ->
  let down := docker_in (this s)
                (composeArgs (disk (world s)) (this s) "down" ["--remove-orphans"]) in
  delete_stack socket options s =
  if JS.strict_eq (ptyExit down) (JS.Num 0)
  then (Ret (JS.Num 0),
        if deleteStackFiles options then without_dir (ran [down] s)
        else ran [down] s)
  else (Throw (Error (getErrorMessage ("delete " ++ name (this s)))), ran [down] s).
Proof.
  intros Hfree down. unfold delete_stack, bind, gets. cbn beta iota.
  rewrite (runComposeCommand_free _ _ _ _ _ Hfree). fold down.
  destruct (JS.strict_eq (ptyExit down) (JS.Num 0)); [|reflexivity].
  destruct (deleteStackFiles options); reflexivity.
Qed.

Lemma forceDelete_free (socket : DockgeSocket) (s : State) :
  terminal_free socket s ->
  let down_v := docker_in (this s)
                  (composeArgs (disk (world s)) (this s) "down"
                     ["-v"; "--remove-orphans"]) in
  forceDelete socket s =
  if JS.strict_eq (ptyExit down_v) (JS.Num 0)
  then (Ret (JS.Num 0), without_dir (ran [down_v] s))
  else (Throw (Error (getErrorMessage ("force delete " ++ name (this s)))),
        ran [down_v] s).
Proof.
  intros Hfree down_v. unfold forceDelete, bind, path, gets. cbn beta iota.
  rewrite getComposeOptions_eq. cbn beta iota.
  rewrite (Terminal_exec_free _ _ _ _ _ _ Hfree).
  change {| sp_file := "docker";
            sp_args := composeArgs (disk (world s)) (this s) "down"
                         ["-v"; "--remove-orphans"];
            sp_cwd := stack_path (this s) |} with down_v.
  destruct (JS.strict_eq (ptyExit down_v) (JS.Num 0)) eqn:E; [|reflexivity].
  apply strict_eq_zero in E. rewrite E. reflexivity.
Qed.

(** X3.  No lifecycle operation leaves a terminal behind or touches the
    stack's name, file names or cached texts: however it ends, the
    terminal map is as before, so the next operation is not refused.
    At most three processes are started (one unless the operation is
    [update]); the disk changes only for a deletion and the status only
    for [update]. *)
Theorem perform_frame (op : operation) (socket : DockgeSocket) (s : State) :
  let s' := snd (perform op socket s) in
  terminalMap (world s') = terminalMap (world s)
  /\ name (this s') = name (this s)
  /\ fileCache (this s') = fileCache (this s)
  /\ (terminal_free socket s -> terminal_free socket s')
  /\ (removes_files op = false -> disk (world s') = disk (world s))
  /\ (op <> Update -> this s' = this s)
  /\ exists l,
        spawned (world s') = spawned (world s) ++ l
        /\ length l <= 3
        /\ (op <> Update -> length l <= 1).
Proof.
  assert (forall command args descr,
             let s' := snd (runComposeCommand socket command args descr s) in
             terminalMap (world s') = terminalMap (world s)
             /\ name (this s') = name (this s)
             /\ fileCache (this s') = fileCache (this s)
             /\ (terminal_free socket s -> terminal_free socket s')
             /\ (false = false -> disk (world s') = disk (world s))
             /\ this s' = this s
             /\ exists l, spawned (world s') = spawned (world s) ++ l
                          /\ length l <= 3 /\ length l <= 1) as Hrcc.
  { intros command args descr. cbn zeta.
    rewrite runComposeCommand_cases, runTerminalExec_cases.
    destruct (terminalMap (world s) !! _); cbn [snd].
    - repeat split; auto. exists []. rewrite app_nil_r. cbn. repeat split; lia.
    - repeat split; auto. eexists. split; [reflexivity|]. cbn. lia. }
  destruct op; cbn [perform removes_files];
    try (unfold deploy, start, stop, restart, down, startService, stopService,
           restartService;
         match goal with
         | |- context [runComposeCommand ?so ?c ?a ?de s] =>
             destruct (Hrcc c a de) as (H1 & H2 & H3 & H4 & H5 & H6 & l & H7 & H8 & H9)
         end;
         repeat split; auto; exists l; repeat split; auto).
  - (* update *)
    destruct (terminalMap (world s)
                !! getComposeTerminalName (endpoint socket) (name (this s)))
      as [t|] eqn:E.
    + rewrite (update_busy _ _ _ E). cbn [snd].
      repeat split; auto; try congruence.
      exists []. rewrite app_nil_r. cbn. repeat split; lia.
    + rewrite (update_free _ _ E). cbn zeta.
      repeat match goal with
        | |- context [if ?b then _ else _] => destruct b
        end; cbn [snd];
        (repeat split; auto; try congruence;
         [eexists; split; [cbn; rewrite <- ?app_assoc; reflexivity|]; cbn; split; [lia | congruence]]).
  - (* delete *)
    destruct (terminalMap (world s)
                !! getComposeTerminalName (endpoint socket) (name (this s)))
      as [t|] eqn:E.
    + rewrite (delete_stack_busy _ _ _ _ E). cbn [snd].
      repeat split; auto.
      exists []. rewrite app_nil_r. cbn. repeat split; lia.
    + rewrite (delete_stack_free _ _ _ E). cbn zeta.
      destruct (JS.strict_eq _ (JS.Num 0)); [destruct (deleteStackFiles options)|];
        cbn [snd]; (repeat split; auto; try discriminate;
         [eexists; split; [reflexivity|]; cbn; lia]).
  - (* forceDelete *)
    destruct (terminalMap (world s)
                !! getComposeTerminalName (endpoint socket) (name (this s)))
      as [t|] eqn:E.
    + rewrite (forceDelete_busy _ _ _ E). cbn [snd].
      repeat split; auto.
      exists []. rewrite app_nil_r. cbn. repeat split; lia.
    + rewrite (forceDelete_free _ _ E). cbn zeta.
      destruct (JS.strict_eq _ (JS.Num 0));
        cbn [snd]; (repeat split; auto; try discriminate;
         [eexists; split; [reflexivity|]; cbn; lia]).
Qed.

(** ** A successful save *)

Lemma validate_ok (s : State) :
  validation_error (name (this s))
    (artifact_content (disk (world s)) (this s) Primary)
    (artifact_content (disk (world s)) (this s) Override)
    (artifact_content (disk (world s)) (this s) Environment) = None ->
  validate s = (Ret tt, validated s).
Proof.
  unfold validate, validation_error, validated, bind, gets. cbn beta iota.
  destruct (matches_name_pattern (name (this s))); cbn [negb]; [|discriminate].
  change (composeYAML s) with (accessor Primary s). rewrite accessor_eq.
  set (y := artifact_content (disk (world s)) (this s) Primary).
  set (o := artifact_content (disk (world s)) (this s) Override).
  set (env := artifact_content (disk (world s)) (this s) Environment).
  set (s1 := accessed Primary s).
  unfold yaml_parse at 1.
  destruct (yaml_ok y); cbn [negb ret throw]; [|discriminate].
  change (composeOverrideYAML s1) with (accessor Override s1).
  rewrite accessor_eq. unfold s1 at 1 2. rewrite content_after_access. fold o s1.
  set (s2 := accessed Override s1).
  assert (accessor Override s2 = (Ret o, s2)) as Hhit.
  { apply accessor_hit. unfold s2. rewrite accessed_cached.
    unfold s1. now rewrite content_after_access. }
  assert (validateEnvFormat s2
          = (if invalidEnvFormat env
             then Throw (ValidationError "Invalid .env format") else Ret tt,
             accessed Environment s2)) as Henv.
  { rewrite validateEnvFormat_eq. unfold s2, s1.
    now rewrite !content_after_access. }
  destruct (String.eqb o EmptyString) eqn:Ho; cbn [negb andb].
  - apply String.eqb_eq in Ho. rewrite Ho, trim_empty_string.
    cbn [String.eqb negb andb]. unfold ret at 1. rewrite Henv.
    now destruct (invalidEnvFormat env).
  - change (composeOverrideYAML s2) with (accessor Override s2). rewrite Hhit.
    destruct (String.eqb (JS.trim o) EmptyString); cbn [negb andb].
    + unfold ret at 1. rewrite Henv. now destruct (invalidEnvFormat env).
    + change (composeOverrideYAML s2) with (accessor Override s2).
      rewrite Hhit. unfold yaml_parse.
      destruct (yaml_ok o); cbn [negb ret throw]; [|discriminate].
      rewrite Henv. now destruct (invalidEnvFormat env).
Qed.


Lemma accessed_fields (b : artifact) (s : State) :
  name (this (accessed b s)) = name (this s)
  /\ _status (this (accessed b s)) = _status (this s)
  /\ _composeFileName (this (accessed b s)) = _composeFileName (this s)
  /\ _composeOverrideFileName (this (accessed b s))
     = _composeOverrideFileName (this s).
Proof. unfold accessed. now destruct (fileCache (this s) !! artifact_key b). Qed.


Lemma validated_fields (s : State) :
  world (validated s) = world s
  /\ name (this (validated s)) = name (this s)
  /\ _status (this (validated s)) = _status (this s)
  /\ _composeFileName (this (validated s)) = _composeFileName (this s)
  /\ _composeOverrideFileName (this (validated s))
     = _composeOverrideFileName (this s).
Proof.
  unfold validated. split; [now rewrite !accessed_world|].
  destruct (accessed_fields Environment (accessed Override (accessed Primary s)))
    as (-> & -> & -> & ->).
  destruct (accessed_fields Override (accessed Primary s)) as (-> & -> & -> & ->).
  apply accessed_fields.
Qed.

(** X4.  Once the name and the three texts are valid, [save] checks the
    directory before it writes: adding a stack whose directory exists
    raises "Stack name already exists", saving a stack whose directory is
    missing raises "Stack not found", and in both cases the world is as
    before. *)
Theorem save_checks_directory (s : State) :
  validation_error (name (this s))
    (artifact_content (disk (world s)) (this s) Primary)
    (artifact_content (disk (world s)) (this s) Override)
    (artifact_content (disk (world s)) (this s) Environment) = None ->
  (exists_on (disk (world s)) (stack_path (this s)) = true ->
   save true s = (Throw (ValidationError "Stack name already exists"), validated s))
  /\ (exists_on (disk (world s)) (stack_path (this s)) = false ->
      save false s = (Throw (ValidationError "Stack not found"), validated s))
  /\ world (validated s) = world s.
Proof.
  intros Hok. destruct (validated_fields s) as (Hw & Hn & _).
  assert (forall isAdd,
             save isAdd s
             = bind (if isAdd
                     then bind (fileExists (stack_path (this s)))
                            (fun e => if e then throw (ValidationError "Stack name already exists")
                                      else mkdir (stack_path (this s)))
                     else bind (fileExists (stack_path (this s)))
                            (fun e => if negb e then throw (ValidationError "Stack not found")
                                      else ret tt))
                 (fun _ => writeStackFiles) (validated s)) as Hsave.
  { intros isAdd. unfold save. unfold bind at 1. rewrite (validate_ok s Hok).
    unfold bind at 1, path, gets. cbn beta iota.
    unfold stack_path. now rewrite Hn. }
  repeat split; [| |exact Hw]; intros Hdir; rewrite Hsave;
    unfold bind, fileExists, gets; cbn beta iota; rewrite Hw, Hdir; reflexivity.
Qed.
















(** ** Texts given to the constructor *)

(** X7.  A text passed to the constructor is cached under its key and an
    argument left undefined is not: the accessor of a supplied text
    answers that text on any disk, without reading the file. *)
Theorem new_Stack_seeds_cache (d : gmap string node) (nm : string)
    (yaml env override : option string) (skipFSOperations : bool)
    (a : artifact) :
  let supplied := match a with
                  | Primary => yaml
                  | Environment => env
                  | Override => override
                  end in
  let k := new_Stack d nm yaml env override skipFSOperations in
  fileCache k !! artifact_key a = supplied
  /\ name k = nm
  /\ _status k = UNKNOWN
  /\ forall text w,
       supplied = Some text ->
       accessor a {| this := k; world := w |}
       = (Ret text, {| this := k; world := w |}).
Proof.
  intros supplied k.
  assert (fileCache k !! artifact_key a = supplied) as Hc.
  { unfold k, new_Stack, supplied.
    destruct skipFSOperations; cbn [fileCache];
      destruct a, yaml, env, override; cbn [seed artifact_key];
      rewrite ?lookup_insert_eq, ?lookup_insert_ne, ?lookup_empty by discriminate;
      reflexivity. }
  split; [exact Hc|]. split; [|split].
  - unfold k, new_Stack. now destruct skipFSOperations.
  - unfold k, new_Stack. now destruct skipFSOperations.
  - intros text w Hs. apply accessor_hit. cbn [this]. now rewrite Hc.
Qed.

(** ** More on the classifier *)

Lemma existsb_Permutation {A} (f : A -> bool) (l l' : list A) :
  Permutation l l' -> existsb f l = existsb f l'.
Proof.
  induction 1 as [|x l l' _ IH|x y l|l l' l'' _ IH1 _ IH2]; cbn.
  - reflexivity.
  - now rewrite IH.
  - destruct (f x), (f y); reflexivity.
  - now rewrite IH1.
Qed.

Lemma filter_length_Permutation {A} (f : A -> bool) (l l' : list A) :
  Permutation l l' ->
  length (List.filter f l) = length (List.filter f l').
Proof.
  induction 1 as [|x l l' _ IH|x y l|l l' l'' _ IH1 _ IH2]; cbn.
  - reflexivity.
  - destruct (f x); cbn; now rewrite IH.
  - destruct (f x), (f y); reflexivity.
  - now rewrite IH1.
Qed.

(** X8.  The loop of [isComposeExitClean] does not depend on the order
    in which [docker ps] lists the containers, although it leaves at the
    first failed one. *)
Theorem exitLoop_order_irrelevant (l l' : list ContainerJson) (n : Z) :
  Permutation l l' -> exitLoop l n = exitLoop l' n.
Proof.
  intros Hp. rewrite !exitLoop_acc.
  rewrite (existsb_Permutation exitedNonZero l l' Hp).
  now rewrite (filter_length_Permutation exitedClean l l' Hp).
Qed.

Lemma not_exited_neutral (l : list ContainerJson) :
  Forall (fun c => JS.startsWith "exited" (JS.trim (cj_Status c)) = false) l ->
  existsb exitedNonZero l = false
  /\ length (List.filter exitedClean l) = 0.
Proof.
  induction 1 as [|c l Hc _ [IH1 IH2]]; [now split|].
  cbn [existsb List.filter]. unfold exitedNonZero at 1, exitedClean at 1.
  rewrite Hc. cbn [andb orb].
  destruct (JS.startsWith "exited (0)" (JS.trim (cj_Status c))) eqn:Hz.
  - apply clean_is_exited in Hz. congruence.
  - now split.
Qed.

(** X9.  Only a status that starts with the lower-case word "exited"
    counts: when no listed container has one (docker's own "Exited (0)
    ..." included), [isComposeExitClean] answers [RUNNING] if the count
    parsed from the aggregate status is 0 and [EXITED] otherwise. *)
Theorem isComposeExitClean_nothing_exited (composeStack : StackJson)
    (l : list ContainerJson) (expected : JS.number) :
  expectedContainersExited composeStack = Ret expected ->
  getSingleComposeStatus (sj_Name composeStack) = Some l ->
  Forall (fun c => JS.startsWith "exited" (JS.trim (cj_Status c)) = false) l ->
  isComposeExitClean composeStack
  = Ret (if JS.strict_eq (JS.Num 0) expected then RUNNING else EXITED).
Proof.
  intros Hexp Hl Hno. unfold isComposeExitClean. rewrite Hexp, Hl, exitLoop_acc.
  destruct (not_exited_neutral l Hno) as [-> ->].
  change (0 + Z.of_nat 0)%Z with 0%Z.
  now destruct (JS.strict_eq (JS.Num 0) expected).
Qed.

Lemma expected_throws_iff (composeStack : StackJson) :
  (exists e, expectedContainersExited composeStack = Throw e)
  <-> JS.includes "(" (sj_Status composeStack) = false.
Proof.
  unfold expectedContainersExited.
  destruct (JS.includes "(" (sj_Status composeStack)) eqn:Hp.
  - destruct (split_with "(" _ Hp) as (x & inner & rest & ->). cbn [nth_error].
    split; [|discriminate]. intros [e He].
    destruct (JS.split ")" inner); discriminate.
  - rewrite (split_without "(" _ Hp). cbn [nth_error].
    split; [reflexivity | intros _; now exists TypeError].
Qed.

(** X10.  [statusConvert] throws exactly for a status that does not
    start with "created", contains "exited" and has no opening
    parenthesis, and what it throws is a [TypeError]; in every other case
    it returns, and never [CREATED_FILE]. *)
Theorem statusConvert_throws_iff (composeStack : StackJson) :
  let st := sj_Status composeStack in
  ((exists e, statusConvert composeStack = Throw e)
   <-> JS.startsWith "created" st = false
       /\ JS.includes "exited" st = true
       /\ JS.includes "(" st = false)
  /\ (forall e, statusConvert composeStack = Throw e -> e = TypeError)
  /\ statusConvert composeStack <> Ret CREATED_FILE.
Proof.
  intros st. unfold statusConvert. fold st.
  assert (forall e, isComposeExitClean composeStack = Throw e -> e = TypeError) as Hty.
  { intros e. unfold isComposeExitClean, expectedContainersExited.
    destruct (nth_error _ 1); [|now intros [= <-]].
    destruct (JS.split ")" s); destruct (getSingleComposeStatus _);
      try discriminate; destruct (exitLoop _ 0); try discriminate;
      destruct (JS.strict_eq _ _); discriminate. }
  assert ((exists e, isComposeExitClean composeStack = Throw e)
          <-> JS.includes "(" st = false) as Hiff.
  { unfold st. rewrite <- expected_throws_iff. unfold isComposeExitClean.
    destruct (expectedContainersExited composeStack) as [n|e0].
    - split; [|intros [e He]; discriminate]. intros [e He].
      destruct (getSingleComposeStatus _); try discriminate.
      destruct (exitLoop _ 0); try discriminate.
      destruct (JS.strict_eq _ _); discriminate.
    - split; intros _; now exists e0. }
  assert (isComposeExitClean composeStack <> Ret CREATED_FILE) as Hnot.
  { unfold isComposeExitClean.
    destruct (expectedContainersExited composeStack); [|discriminate].
    destruct (getSingleComposeStatus _); [|discriminate].
    destruct (exitLoop _ 0); [|discriminate].
    destruct (JS.strict_eq _ _); discriminate. }
  destruct (JS.startsWith "created" st).
  { split; [split|split]; try discriminate.
    - intros [e He]. discriminate.
    - intros (H & _). discriminate. }
  destruct (JS.includes "exited" st).
  { split; [split|split]; auto.
    - intros H. repeat split. now apply Hiff.
    - intros (_ & _ & H). now apply Hiff. }
  destruct (JS.startsWith "running" st);
    (split; [split|split]; try discriminate;
     [intros [e He]; discriminate | intros (_ & H & _); discriminate]).
Qed.

(** ** The status list *)

Lemma statusLoop_app (pre rest : list StackJson) (m : gmap string status) :
  Forall (fun cs => exists st, statusConvert cs = Ret st) pre ->
  statusLoop (pre ++ rest) m = statusLoop rest (statusLoop pre m).
Proof.
  intros Hok. revert m. induction Hok as [|cs pre [st Hst] _ IH]; intros m.
  - reflexivity.
  - cbn [app statusLoop]. rewrite Hst. apply IH.
Qed.

Lemma statusLoop_other (l : list StackJson) (m : gmap string status) (n : string) :
  Forall (fun cs => sj_Name cs <> n) l -> statusLoop l m !! n = m !! n.
Proof.
  intros Hn. revert m. induction Hn as [|cs l Hcs _ IH]; intros m.
  - reflexivity.
  - cbn [statusLoop]. destruct (statusConvert cs) as [st|e]; [|reflexivity].
    rewrite IH. now apply lookup_insert_ne.
Qed.

(** X11.  [getStatusList] stops at the first entry whose classification
    throws: the entries before it are kept, the entries after it are not
    looked at, so a stack that only they list is reported [UNKNOWN] by
    [updateStatus]. *)
Theorem getStatusList_stops_at_throw (pre post : list StackJson)
    (bad : StackJson) (e : exn) :
  composeLs = Some (pre ++ bad :: post) ->
  Forall (fun cs => exists st, statusConvert cs = Ret st) pre ->
  statusConvert bad = Throw e ->
  getStatusList = statusLoop pre ∅
  /\ forall s,
       Forall (fun cs => sj_Name cs <> name (this s)) pre ->
       _status (this (snd (updateStatus s))) = UNKNOWN.
Proof.
  intros Hls Hok Hbad.
  assert (getStatusList = statusLoop pre ∅) as Hg.
  { unfold getStatusList. rewrite Hls, (statusLoop_app _ _ _ Hok).
    cbn [statusLoop]. now rewrite Hbad. }
  split; [exact Hg|]. intros s Hn.
  unfold updateStatus, modify. cbn [snd this set_this with_status _status].
  now rewrite Hg, (statusLoop_other _ _ _ Hn), lookup_empty.
Qed.

(** X12.  In [getStatusList] the last entry of a name wins, whatever
    follows it under other names, and [updateStatus] takes the status
    from there; a stack that [docker compose ls] does not list becomes
    [UNKNOWN]. *)
Theorem getStatusList_last_entry (pre post : list StackJson) (cs : StackJson)
    (st : status) :
  composeLs = Some (pre ++ cs :: post) ->
  Forall (fun c => exists st', statusConvert c = Ret st') pre ->
  statusConvert cs = Ret st ->
  Forall (fun c => sj_Name c <> sj_Name cs) post ->
  getStatusList !! sj_Name cs = Some st
  /\ (forall s, name (this s) = sj_Name cs ->
                _status (this (snd (updateStatus s))) = st)
  /\ (forall s,
        Forall (fun c => sj_Name c <> name (this s)) (pre ++ cs :: post) ->
        _status (this (snd (updateStatus s))) = UNKNOWN).
Proof.
  intros Hls Hok Hst Hpost.
  assert (getStatusList !! sj_Name cs = Some st) as Hg.
  { unfold getStatusList. rewrite Hls, (statusLoop_app _ _ _ Hok).
    cbn [statusLoop]. rewrite Hst, (statusLoop_other _ _ _ Hpost).
    apply lookup_insert_eq. }
  split; [exact Hg|]. split.
  - intros s Hn. unfold updateStatus, modify.
    cbn [snd this set_this with_status _status]. now rewrite Hn, Hg.
  - intros s Hn. unfold updateStatus, modify.
    cbn [snd this set_this with_status _status].
    unfold getStatusList. rewrite Hls.
    now rewrite (statusLoop_other _ _ _ Hn), lookup_empty.
Qed.

(** ** The lines of [docker ps] *)

Lemma split_app (c : ascii) (a b : string) :
  JS.split c (a ++ String c b) = JS.split c a ++ JS.split c b.
Proof.
  induction a as [|x a IH].
  - cbn [String.append JS.split]. change (EmptyString ++ String c b)%string
      with (String c b). cbn [JS.split]. now rewrite Ascii.eqb_refl.
  - change (String x a ++ String c b)%string with (String x (a ++ String c b)).
    cbn [JS.split]. rewrite IH.
    destruct (Ascii.eqb x c); [reflexivity|].
    destruct (JS.split c a) as [|y ys] eqn:E; [now apply split_not_nil in E|].
    reflexivity.
Qed.

Lemma parseLines_app (l1 l2 : list string) :
  parseLines (l1 ++ l2)
  = match parseLines l1, parseLines l2 with
    | Some x, Some y => Some (x ++ y)
    | _, _ => None
    end.
Proof.
  induction l1 as [|e l1 IH]; cbn [app parseLines].
  - now destruct (parseLines l2).
  - destruct (JSON_parse (JS.trim e)); [|reflexivity].
    rewrite IH. destruct (parseLines l1), (parseLines l2); reflexivity.
Qed.

(** X13.  [parseDockerJsonLines] works line by line: the output of two
    texts joined by a line feed parses to the two lists one after the
    other, and to nothing if either part has a line that does not parse;
    blank lines do not count, so a final line feed changes nothing. *)
Theorem parseDockerJsonLines_by_line (a b : string) :
  parseDockerJsonLines (a ++ String LF b)
  = match parseDockerJsonLines a, parseDockerJsonLines b with
    | Some x, Some y => Some (x ++ y)
    | _, _ => None
    end
  /\ parseDockerJsonLines (a ++ String LF EmptyString) = parseDockerJsonLines a
  /\ parseDockerJsonLines EmptyString = Some [].
Proof.
  assert (forall a b,
             parseDockerJsonLines (a ++ String LF b)
             = match parseDockerJsonLines a, parseDockerJsonLines b with
               | Some x, Some y => Some (x ++ y)
               | _, _ => None
               end) as Happ.
  { intros a0 b0. unfold parseDockerJsonLines.
    now rewrite split_app, List.filter_app, parseLines_app. }
  split; [apply Happ|]. split; [|reflexivity].
  rewrite Happ. change (parseDockerJsonLines EmptyString) with (Some (@nil ContainerJson)).
  destruct (parseDockerJsonLines a); [|reflexivity]. now rewrite app_nil_r.
Qed.

(** ** Finding the compose file *)

Lemma anyFileExists_iff (d : gmap string node) (dir : string)
    (accepted : list string) :
  anyFileExists d dir accepted = true
  <-> exists f, In f accepted /\ exists_on d (path_join dir f) = true.
Proof.
  induction accepted as [|g rest IH]; cbn [anyFileExists].
  - split; [discriminate | now intros (f & [] & _)].
  - destruct (exists_on d (path_join dir g)) eqn:Hg.
    + split; [|reflexivity]. intros _. exists g. split; [now left | exact Hg].
    + rewrite IH. split.
      * intros (f & Hin & Hf). exists f. split; [now right | exact Hf].
      * intros (f & [<-|Hin] & Hf); [congruence|]. now exists f.
Qed.

Lemma findFileName_found (d : gmap string node) (dir : string)
    (accepted : list string) (fallback : string) :
  if anyFileExists d dir accepted
  then In (findFileName d dir accepted fallback) accepted
       /\ exists_on d (path_join dir (findFileName d dir accepted fallback)) = true
  else findFileName d dir accepted fallback = fallback.
Proof.
  induction accepted as [|g rest IH]; cbn [anyFileExists findFileName].
  - reflexivity.
  - destruct (exists_on d (path_join dir g)) eqn:Hg.
    + split; [now left | exact Hg].
    + destruct (anyFileExists d dir rest); [|exact IH].
      destruct IH as [Hin Hex]. split; [now right | exact Hex].
Qed.

(** X14.  [composeFileExists] holds exactly when one of the accepted
    file names exists in the stack's directory; then the file name the
    constructor discovers is an accepted name that exists, and otherwise
    it is the default "compose.yaml". *)
Theorem composeFileExists_agrees (d : gmap string node) (k : Stack) :
  (composeFileExists d stacksDir (name k) = true
   <-> exists f, In f acceptedComposeFileNames
                 /\ exists_on d (path_join (stack_path k) f) = true)
  /\ (composeFileExists d stacksDir (name k) = true ->
      In (findComposeFileName d k) acceptedComposeFileNames
      /\ exists_on d (path_join (stack_path k) (findComposeFileName d k)) = true)
  /\ (composeFileExists d stacksDir (name k) = false ->
      findComposeFileName d k = "compose.yaml").
Proof.
  unfold composeFileExists, findComposeFileName. fold (stack_path k).
  split; [apply anyFileExists_iff|].
  pose proof (findFileName_found d (stack_path k) acceptedComposeFileNames
                "compose.yaml") as H.
  destruct (anyFileExists d (stack_path k) acceptedComposeFileNames).
  - split; [intros _; exact H | discriminate].
  - split; [discriminate | intros _; exact H].
Qed.

(** ** The list of stacks *)


Lemma scanLoop_lookup (listed : gmap string Stack) (d : gmap string node)
    (l : list string) (m : gmap string Stack) (nm : string) :
  scanLoop listed d l m !! nm
  = if is_scanned d l nm then Some (scanned_stack d nm) else m !! nm.
Proof.
  revert m. induction l as [|filename rest IH]; intros m.
  - reflexivity.
  - cbn [scanLoop]. unfold is_scanned in *. cbn [existsb].
    destruct (String.eqb nm filename) eqn:Heq.
    + apply String.eqb_eq in Heq. subst filename. cbn [orb].
      unfold is_directory at 1.
      destruct (d !! path_join stacksDir nm) as [[c|]|] eqn:Hd.
      * rewrite IH. unfold is_directory. rewrite Hd.
        now rewrite andb_false_r.
      * cbn [andb].
        destruct (composeFileExists d stacksDir nm) eqn:Hc; cbn [negb].
        -- unfold getStack. unfold exists_on, is_directory. rewrite Hd.
           cbn [negb orb andb]. rewrite IH.
           unfold is_directory. rewrite Hd, !andb_true_r.
           destruct (existsb (String.eqb nm) rest).
           ++ reflexivity.
           ++ now rewrite lookup_insert_eq.
        -- rewrite IH. unfold is_directory. rewrite Hd.
           now rewrite !andb_false_r.
      * rewrite IH. unfold is_directory. rewrite Hd.
        now rewrite andb_false_r.
    + cbn [orb]. apply String.eqb_neq in Heq.
      destruct (d !! path_join stacksDir filename) as [[c|]|] eqn:Hd;
        try apply IH.
      destruct (composeFileExists d stacksDir filename); cbn [negb];
        [|apply IH].
      unfold getStack. unfold exists_on, is_directory. rewrite Hd.
      cbn [negb orb andb]. rewrite IH.
      rewrite lookup_insert_ne by congruence. reflexivity.
Qed.

Lemma composeFileExists_agrees_aux (d : gmap string node) (nm : string) :
  if composeFileExists d stacksDir nm
  then In (_composeFileName (scanned_stack d nm)) acceptedComposeFileNames
       /\ exists_on d (path_join (path_join stacksDir nm)
                         (_composeFileName (scanned_stack d nm))) = true
  else _composeFileName (scanned_stack d nm) = "compose.yaml".
Proof.
  unfold composeFileExists, scanned_stack, fresh_stack, new_Stack.
  cbn [with_status _composeFileName]. unfold findComposeFileName, stack_path.
  cbn [name].
  apply (findFileName_found d (path_join stacksDir nm) acceptedComposeFileNames
           "compose.yaml").
Qed.

(** X15.  The directory scan lists exactly the entries of the stacks
    directory that are directories holding an accepted compose file.
    Each is a freshly constructed stack under its own name with status
    [CREATED_FILE], an empty cache and a discovered file name that
    exists; the fall-back list of [getStack] is never consulted; a
    failing [readdir] gives the empty list. *)
Theorem scanStacksDirectory_lists (listed : gmap string Stack)
    (d : gmap string node) (filenameList : list string) (nm : string) :
  scanStacksDirectory listed d (Some filenameList) !! nm
  = (if is_scanned d filenameList nm then Some (scanned_stack d nm) else None)
  /\ (is_scanned d filenameList nm = true ->
      name (scanned_stack d nm) = nm
      /\ _status (scanned_stack d nm) = CREATED_FILE
      /\ fileCache (scanned_stack d nm) = ∅
      /\ In (_composeFileName (scanned_stack d nm)) acceptedComposeFileNames
      /\ exists_on d (path_join (path_join stacksDir nm)
                        (_composeFileName (scanned_stack d nm))) = true)
  /\ scanStacksDirectory listed d (Some filenameList)
     = scanStacksDirectory ∅ d (Some filenameList)
  /\ scanStacksDirectory listed d None = ∅.
Proof.
  split; [|split; [|split; [|reflexivity]]].
  - unfold scanStacksDirectory. rewrite scanLoop_lookup. now rewrite lookup_empty.
  - intros Hs. unfold is_scanned in Hs.
    apply andb_prop in Hs as [_ Hc].
    pose proof (composeFileExists_agrees_aux d nm) as H.
    rewrite Hc in H. destruct H as [Hin Hex].
    repeat split; assumption.
  - apply map_eq. intros n. unfold scanStacksDirectory.
    now rewrite !scanLoop_lookup.
Qed.

Lemma updateLoop_other (d : gmap string node) (l : list StackJson)
    (m : gmap string Stack) (n : string) :
  Forall (fun cs => sj_Name cs <> n) l -> updateLoop d l m !! n = m !! n.
Proof.
  intros Hn. revert m. induction Hn as [|cs l Hcs _ IH]; intros m.
  - reflexivity.
  - cbn [updateLoop]. destruct (m !! sj_Name cs) as [stack|] eqn:Hm.
    + destruct (statusConvert cs); [|reflexivity].
      rewrite IH. now apply lookup_insert_ne.
    + destruct (String.eqb (sj_Name cs) "dockge"); [apply IH|].
      cbn zeta. destruct (statusConvert cs).
      * rewrite IH. now rewrite !lookup_insert_ne.
      * now rewrite lookup_insert_ne.
Qed.

Lemma updateLoop_keeps (d : gmap string node) (l : list StackJson)
    (m : gmap string Stack) (n : string) :
  is_Some (m !! n) -> is_Some (updateLoop d l m !! n).
Proof.
  revert m. induction l as [|cs l IH]; intros m Hm; [exact Hm|].
  cbn [updateLoop]. destruct (m !! sj_Name cs) as [stack|] eqn:Hcs.
  - destruct (statusConvert cs); [|exact Hm].
    apply IH. rewrite lookup_insert_is_Some. destruct (decide (sj_Name cs = n)); auto.
  - destruct (String.eqb (sj_Name cs) "dockge"); [now apply IH|].
    cbn zeta. destruct (statusConvert cs).
    + apply IH. rewrite !lookup_insert_is_Some.
      destruct (decide (sj_Name cs = n)); auto.
    + rewrite lookup_insert_is_Some. destruct (decide (sj_Name cs = n)); auto.
Qed.


Lemma constructed_insert (d : gmap string node) (m : gmap string Stack)
    (n : string) (st : status) :
  constructed_from d m ->
  constructed_from d (<[n := with_status st (fresh_stack d n)]> m).
Proof.
  intros Hm n' k. destruct (decide (n = n')) as [->|Hne].
  - rewrite lookup_insert_eq. intros [= <-]. now exists st.
  - rewrite lookup_insert_ne by exact Hne. apply Hm.
Qed.

Lemma updateLoop_constructed (d : gmap string node) (l : list StackJson)
    (m : gmap string Stack) :
  constructed_from d m -> constructed_from d (updateLoop d l m).
Proof.
  revert m. induction l as [|cs l IH]; intros m Hm; [exact Hm|].
  cbn [updateLoop]. destruct (m !! sj_Name cs) as [stack|] eqn:Hcs.
  - destruct (statusConvert cs) as [st|]; [|exact Hm].
    apply IH. destruct (Hm _ _ Hcs) as [x ->].
    now apply (constructed_insert d m (sj_Name cs) st).
  - destruct (String.eqb (sj_Name cs) "dockge"); [now apply IH|].
    cbn zeta. destruct (statusConvert cs) as [st|].
    + apply IH. apply (constructed_insert d _ (sj_Name cs) st).
      now apply (constructed_insert d m (sj_Name cs) UNKNOWN).
    + now apply (constructed_insert d m (sj_Name cs) UNKNOWN).
Qed.

Lemma updateLoop_app (d : gmap string node) (pre rest : list StackJson)
    (m : gmap string Stack) :
  Forall (fun cs => exists st, statusConvert cs = Ret st) pre ->
  updateLoop d (pre ++ rest) m = updateLoop d rest (updateLoop d pre m).
Proof.
  intros Hok. revert m. induction Hok as [|cs pre [st Hst] _ IH]; intros m.
  - reflexivity.
  - cbn [app updateLoop]. rewrite Hst.
    destruct (m !! sj_Name cs); [apply IH|].
    destruct (String.eqb (sj_Name cs) "dockge"); apply IH.
Qed.

Lemma scan_constructed (listed : gmap string Stack) (d : gmap string node)
    (readdir : option (list string)) :
  constructed_from d (scanStacksDirectory listed d readdir).
Proof.
  intros n k. destruct readdir as [l|]; cbn [scanStacksDirectory].
  - rewrite scanLoop_lookup, lookup_empty.
    destruct (is_scanned d l n); [|discriminate].
    intros [= <-]. now exists CREATED_FILE.
  - now rewrite lookup_empty.
Qed.


(** X17.  In the list that [getStackList] builds, a stack that
    [docker compose ls] names has the status of its last entry there
    (when the entries up to it classify without an exception), whether
    it was found on the disk or not, unless it is an unmanaged stack
    named "dockge"; a stack that is not named keeps [CREATED_FILE] if the
    scan found it and is absent otherwise. *)
Theorem getStackList_statuses (listed managed : gmap string Stack)
    (d : gmap string node) (filenameList : list string)
    (composeList : list StackJson) :
  composeLs = Some composeList ->
  let stackList := fst (getStackList listed managed d (Some filenameList) false) in
  (forall pre cs post st,
      composeList = pre ++ cs :: post ->
      Forall (fun c => exists st', statusConvert c = Ret st') pre ->
      statusConvert cs = Ret st ->
      Forall (fun c => sj_Name c <> sj_Name cs) post ->
      sj_Name cs <> "dockge" \/ is_scanned d filenameList (sj_Name cs) = true ->
      stackList !! sj_Name cs
      = Some (with_status st (fresh_stack d (sj_Name cs))))
  /\ (forall nm,
        Forall (fun c => sj_Name c <> nm) composeList ->
        stackList !! nm
        = if is_scanned d filenameList nm then Some (scanned_stack d nm)
          else None).
Proof.
  intros Hls stackList.
  assert (stackList
          = updateLoop d composeList (scanStacksDirectory listed d (Some filenameList)))
    as Hsl.
  { unfold stackList, getStackList, updateStackStatuses. cbn [andb fst].
    now rewrite Hls. }
  split.
  - intros pre cs post st -> Hpre Hst Hpost Hwho.
    rewrite Hsl, (updateLoop_app _ _ _ _ Hpre). cbn [updateLoop].
    set (m := updateLoop d pre _).
    assert (constructed_from d m) as Hm
      by apply updateLoop_constructed, scan_constructed.
    rewrite Hst. destruct (m !! sj_Name cs) as [stack|] eqn:Hcs.
    + rewrite (updateLoop_other _ _ _ _ Hpost), lookup_insert_eq.
      destruct (Hm _ _ Hcs) as [x ->]. reflexivity.
    + destruct (String.eqb (sj_Name cs) "dockge") eqn:Heq.
      * exfalso. apply String.eqb_eq in Heq.
        destruct Hwho as [Hne|Hsc]; [contradiction|].
        assert (is_Some (m !! sj_Name cs)) as [k Hk].
        { apply updateLoop_keeps. cbn [scanStacksDirectory].
          rewrite scanLoop_lookup, Hsc. eauto. }
        congruence.
      * cbn zeta. rewrite (updateLoop_other _ _ _ _ Hpost), lookup_insert_eq.
        reflexivity.
  - intros nm Hnm. rewrite Hsl, (updateLoop_other _ _ _ _ Hnm).
    cbn [scanStacksDirectory]. now rewrite scanLoop_lookup, lookup_empty.
Qed.





Lemma serviceLoop_lookup (Service Health : ContainerJson -> string)
    (containers : list ContainerJson)
    (statusList : gmap string (list (string * string))) (serviceName : string) :
  serviceLoop Service Health containers statusList !! serviceName
  = match statusList !! serviceName,
          entries_of Service Health serviceName containers with
    | None, [] => None
    | None, entries => Some entries
    | Some l, entries => Some (l ++ entries)
    end.
Proof.
  revert statusList.
  induction containers as [|c rest IH]; intros statusList.
  - cbn. destruct (statusList !! serviceName); [now rewrite app_nil_r | reflexivity].
  - cbn [serviceLoop]. rewrite IH. unfold entries_of. cbn [List.filter].
    destruct (String.eqb (Service c) serviceName) eqn:Heq.
    + apply String.eqb_eq in Heq. rewrite Heq. rewrite lookup_alter_eq.
      cbn [map].
      destruct (statusList !! serviceName) as [l|] eqn:Hl.
      * rewrite Hl. cbn. now rewrite <- app_assoc.
      * rewrite lookup_insert_eq. cbn. reflexivity.
    + apply String.eqb_neq in Heq. rewrite lookup_alter_ne by exact Heq.
      destruct (statusList !! Service c); [reflexivity|].
      now rewrite lookup_insert_ne.
Qed.

(** X19.  [getServiceStatusList] groups the containers that [ps()]
    answers by service: a service is a key of the map exactly when one
    of the containers belongs to it, and its entries are those of its
    containers, each once and in the order of the output, with the health
    as status when there is one and the state otherwise. *)
Theorem getServiceStatusList_groups (Service Health : ContainerJson -> string)
    (res : option string) (containers : list ContainerJson)
    (serviceName : string) :
  ps res = Some containers ->
  getServiceStatusList Service Health res !! serviceName
  = match entries_of Service Health serviceName containers with
    | [] => None
    | entries => Some entries
    end.
Proof.
  intros Hps. unfold getServiceStatusList. rewrite Hps.
  rewrite serviceLoop_lookup. now rewrite lookup_empty.
Qed.

End Dockge.

(** ** Facts about the terminals *)

Lemma heap_update_eq (ref : nat) (f : Term.terminal -> Term.terminal)
    (s : Term.sys) :
  Term.heap (Term.update_heap ref f s) !! ref = f <$> Term.heap s !! ref.
Proof. cbn. apply lookup_alter_eq. Qed.

Lemma heap_update_ne (ref ref' : nat) (f : Term.terminal -> Term.terminal)
    (s : Term.sys) :
  ref <> ref' ->
  Term.heap (Term.update_heap ref f s) !! ref' = Term.heap s !! ref'.
Proof. intros H. cbn. now apply lookup_alter_ne. Qed.

(** X20.  [getOrCreateTerminal] is idempotent: once a name is registered
    the call returns the registered terminal and changes nothing, so the
    program, arguments and directory of a second call are ignored. *)
Theorem getOrCreateTerminal_idempotent (E : Term.env) (name file file' : string)
    (arguments arguments' : list string) (dir dir' : string) (s : Term.sys) :
  let r := Term.getOrCreateTerminal E name file arguments dir s in
  Term.getTerminal name (snd r) = Some (fst r)
  /\ Term.getOrCreateTerminal E name file' arguments' dir' (snd r) = r
  /\ (forall ref, Term.getTerminal name s = Some ref -> r = (ref, s)).
Proof.
  unfold Term.getOrCreateTerminal, Term.getTerminal.
  destruct (Term.terminalMap s !! name) as [ref|] eqn:Hn; cbn [fst snd].
  - repeat split; [exact Hn | now rewrite Hn | now intros ref' [= <-]].
  - cbn [Term.construct fst snd Term.terminalMap].
    rewrite lookup_insert_eq. repeat split. discriminate.
Qed.


Lemma exec_free_state (E : Term.env) (socketID name file : string)
    (arguments : list string) (dir : string) (s : Term.sys) :
  Term.terminalMap s !! name = None ->
  let ref := Term.next s in
  let s4 :=
    Term.update_heap ref (Term.set_awaited true)
      (Term.join ref socketID
         (Term.update_heap ref (Term.set_rows (Term.PROGRESS_TERMINAL_ROWS E))
            (snd (Term.construct E Term.Plain name file arguments dir s)))) in
  Term.exec E (Some socketID) name file arguments dir s
  = (Ret ref, Term.start E ref s4)
  /\ exists t,
      Term.heap s4 !! ref = Some t
      /\ Term.tname t = name /\ Term.started t = false
      /\ Term.socketList t = [socketID] /\ Term.awaited t = true
      /\ Term.enableKeepAlive t = false
      /\ Term.command_of t
         = {| sp_file := file; sp_args := arguments; sp_cwd := dir |}.
Proof.
  intros Hfree ref s4. split.
  - unfold Term.exec. now rewrite Hfree.
  - unfold s4. rewrite heap_update_eq. unfold Term.join.
    rewrite heap_update_eq, heap_update_eq.
    cbn [Term.construct snd Term.heap]. rewrite lookup_insert_eq.
    cbn. eexists. split; [reflexivity|]. now repeat split.
Qed.

(** X21.  [Terminal.exec] on a free name starts exactly one process, for
    the given program, arguments and directory, and keeps the terminal
    registered while it runs; when the process exits with a code, the
    promise resolves with that code, the joined socket is told so once,
    and the registry is again as it was before the call. *)
Theorem exec_resolves_on_exit (E : Term.env) (socketID name file : string)
    (arguments : list string) (dir : string) (s : Term.sys) :
  Term.terminalMap s !! name = None ->
  Term.spawn_error E {| sp_file := file; sp_args := arguments; sp_cwd := dir |}
  = None ->
  let ref := Term.next s in
  let command := {| sp_file := file; sp_args := arguments; sp_cwd := dir |} in
  let s1 := snd (Term.exec E (Some socketID) name file arguments dir s) in
  fst (Term.exec E (Some socketID) name file arguments dir s) = Ret ref
  /\ Term.terminalMap s1 = <[name := ref]> (Term.terminalMap s)
  /\ Term.processes s1 = Term.processes s ++ [(ref, command)]
  /\ Term.resolved s1 = Term.resolved s
  /\ forall exitCode,
       let s2 := Term.exit ref exitCode s1 in
       Term.terminalMap s2 = Term.terminalMap s
       /\ Term.resolved s2 = Term.resolved s ++ [(ref, exitCode)]
       /\ Term.emitted s2
          = Term.emitted s ++ [(socketID, Term.terminalExit name exitCode)]
       /\ Term.processes s2 = Term.processes s1.
Proof.
  intros Hfree Hspawn ref command s1.
  destruct (exec_free_state E socketID name file arguments dir s Hfree)
    as (Hexec & t & Ht & Hname & Hst & Hsock & Haw & Hka & Hcmd).
  unfold s1. rewrite Hexec. cbn [fst snd].
  unfold Term.start. rewrite Ht, Hst, Hcmd, Hspawn.
  cbn [Term.terminalMap Term.processes Term.resolved Term.update_heap Term.join
       Term.construct snd].
  repeat split.
  all: unfold Term.exit; cbn [Term.heap]; rewrite lookup_insert_eq;
    cbn [Term.tname Term.set_started Term.set_timers Term.awaited
         Term.socketList Term.broadcast Term.emit Term.terminalMap
         Term.resolved Term.emitted Term.processes Term.update_heap
         Term.join Term.construct snd map];
    rewrite ?Hname, ?Haw, ?Hsock; cbn [map]; try reflexivity.
  rewrite delete_insert_eq. now apply delete_id.
Qed.

(** X22.  When the process cannot be started, [exec] still resolves: the
    exit handler runs at once with the number read from the last word of
    the failure message, no process is recorded, the terminal is not
    left in the registry and the joined socket gets the exit event. *)
Theorem exec_resolves_on_spawn_failure (E : Term.env)
    (socketID name file : string) (arguments : list string) (dir : string)
    (s : Term.sys) (message : string) :
  Term.terminalMap s !! name = None ->
  Term.spawn_error E {| sp_file := file; sp_args := arguments; sp_cwd := dir |}
  = Some message ->
  let ref := Term.next s in
  let exitCode := Term.Number E (List.last (JS.split " " message) "") in
  let s1 := snd (Term.exec E (Some socketID) name file arguments dir s) in
  fst (Term.exec E (Some socketID) name file arguments dir s) = Ret ref
  /\ Term.terminalMap s1 = Term.terminalMap s
  /\ Term.processes s1 = Term.processes s
  /\ Term.resolved s1 = Term.resolved s ++ [(ref, exitCode)]
  /\ Term.emitted s1
     = Term.emitted s ++ [(socketID, Term.terminalExit name exitCode)]
  /\ exists t, Term.heap s1 !! ref = Some t
                /\ Term.started t = false
                /\ Term.keepAliveInterval t = false
                /\ Term.kickInterval t = false
                /\ Term.socketList t = [].
Proof.
  intros Hfree Hspawn ref exitCode s1.
  destruct (exec_free_state E socketID name file arguments dir s Hfree)
    as (Hexec & t & Ht & Hname & Hst & Hsock & Haw & Hka & Hcmd).
  unfold s1. rewrite Hexec. cbn [fst snd].
  unfold Term.start. rewrite Ht, Hst, Hcmd, Hspawn. fold exitCode.
  unfold Term.exit. rewrite heap_update_eq, Ht. cbn [fmap option_fmap option_map].
  cbn [Term.tname Term.set_started Term.set_timers Term.awaited
       Term.socketList Term.broadcast Term.emit Term.terminalMap
       Term.resolved Term.emitted Term.processes Term.update_heap
       Term.join Term.construct snd map Term.heap Term.set_sockets].
  rewrite ?Hname, ?Haw, ?Hsock. cbn [map].
  repeat split.
  - rewrite delete_insert_eq. now apply delete_id.
  - eexists. rewrite lookup_insert_eq. split; [reflexivity|].
    cbn. now rewrite Hst.
Qed.

(** X23.  [start] spawns at most once: on a terminal that has its
    process it does nothing, and on one that has none it spawns the
    terminal's command, sets the sweep timer and, only if keep-alive is
    enabled, the keep-alive timer; a second [start] changes nothing. *)
Theorem start_spawns_once (E : Term.env) (ref : nat) (s : Term.sys)
    (t : Term.terminal) :
  Term.heap s !! ref = Some t ->
  (Term.started t = true -> Term.start E ref s = s)
  /\ (Term.started t = false ->
      Term.spawn_error E (Term.command_of t) = None ->
      Term.processes (Term.start E ref s)
      = Term.processes s ++ [(ref, Term.command_of t)]
      /\ Term.start E ref (Term.start E ref s) = Term.start E ref s
      /\ exists t',
          Term.heap (Term.start E ref s) !! ref = Some t'
          /\ Term.started t' = true
          /\ Term.kickInterval t' = true
          /\ Term.keepAliveInterval t' = Term.enableKeepAlive t
          /\ Term.socketList t' = Term.socketList t).
Proof.
  intros Ht. split.
  - intros Hs. unfold Term.start. now rewrite Ht, Hs.
  - intros Hs Hspawn.
    assert (Term.start E ref s
            = {| Term.heap :=
                   <[ref := Term.set_started true
                              (Term.set_timers (Term.enableKeepAlive t) true t)]>
                     (Term.heap s);
                 Term.terminalMap := Term.terminalMap s;
                 Term.next := Term.next s;
                 Term.processes := Term.processes s ++ [(ref, Term.command_of t)];
                 Term.input := Term.input s; Term.emitted := Term.emitted s;
                 Term.resolved := Term.resolved s |}) as Hstart.
    { unfold Term.start. now rewrite Ht, Hs, Hspawn. }
    rewrite Hstart. split; [reflexivity|]. split.
    + unfold Term.start at 1. cbn [Term.heap]. now rewrite lookup_insert_eq.
    + eexists. cbn [Term.heap]. rewrite lookup_insert_eq.
      split; [reflexivity|]. now repeat split.
Qed.

Lemma received_app (socketID : string) (l1 l2 : list (string * Term.event)) :
  Term.received socketID (l1 ++ l2)
  = Term.received socketID l1 ++ Term.received socketID l2.
Proof. unfold Term.received. now rewrite List.filter_app, map_app. Qed.

Lemma received_broadcast_out (socketID : string) (e : Term.event)
    (l : list string) :
  ~ In socketID l ->
  Term.received socketID (map (fun j => (j, e)) l) = [].
Proof.
  induction l as [|j l IH]; intros Hn; [reflexivity|].
  unfold Term.received in *. cbn [map List.filter fst].
  destruct (String.eqb socketID j) eqn:Heq.
  - apply String.eqb_eq in Heq. subst j. destruct Hn. now left.
  - apply IH. intros Hin. apply Hn. now right.
Qed.

Lemma received_broadcast_in (socketID : string) (e : Term.event)
    (l : list string) :
  NoDup l -> In socketID l ->
  Term.received socketID (map (fun j => (j, e)) l) = [e].
Proof.
  induction l as [|j l IH]; intros Hnd Hin; [destruct Hin|].
  apply NoDup_cons in Hnd as [Hj Hnd].
  change (map (fun j0 => (j0, e)) (j :: l))
    with ([(j, e)] ++ map (fun j0 => (j0, e)) l).
  rewrite received_app. unfold Term.received at 1. cbn [map List.filter fst].
  destruct (String.eqb socketID j) eqn:Heq.
  - apply String.eqb_eq in Heq. subst j. cbn [map snd app].
    rewrite received_broadcast_out; [reflexivity|].
    intros H. apply Hj. now apply list_elem_of_In.
  - apply String.eqb_neq in Heq. destruct Hin as [->|Hin]; [congruence|].
    cbn [map app]. now apply IH.
Qed.

Lemma filter_out_absent (socketID : string) (l : list string) :
  ~ In socketID l ->
  List.filter (fun i => negb (String.eqb socketID i)) l = l.
Proof.
  induction l as [|j l IH]; intros Hn; [reflexivity|].
  cbn [List.filter]. destruct (String.eqb socketID j) eqn:Heq.
  - apply String.eqb_eq in Heq. subst j. destruct Hn. now left.
  - cbn [negb]. f_equal. apply IH. intros Hin. apply Hn. now right.
Qed.

Lemma filter_out_gone (socketID : string) (l : list string) :
  ~ In socketID (List.filter (fun i => negb (String.eqb socketID i)) l).
Proof.
  intros Hin. apply List.filter_In in Hin as [_ H].
  now rewrite String.eqb_refl in H.
Qed.

Lemma existsb_eqb_In (socketID : string) (l : list string) :
  existsb (String.eqb socketID) l = true <-> In socketID l.
Proof.
  rewrite existsb_exists. split.
  - intros (j & Hin & Heq). apply String.eqb_eq in Heq. now subst j.
  - intros Hin. exists socketID. split; [exact Hin | apply String.eqb_refl].
Qed.

(** X24.  Viewers are a set kept in joining order.  Joining twice is
    joining once; a socket that joined gets every later chunk exactly
    once and a socket that left gets none; leaving a terminal one never
    joined changes nobody's view; and leaving right after joining gives
    back the viewers there were. *)
Theorem viewers_get_each_chunk_once (E : Term.env) (ref : nat) (s : Term.sys)
    (t : Term.terminal) (socketID data : string) :
  Term.heap s !! ref = Some t ->
  NoDup (Term.socketList t) ->
  let joined := Term.join ref socketID s in
  let left := Term.leave ref socketID s in
  NoDup (Term.viewers ref joined)
  /\ In socketID (Term.viewers ref joined)
  /\ Term.join ref socketID joined = joined
  /\ Term.received socketID (Term.emitted (Term.onData E ref data joined))
     = Term.received socketID (Term.emitted s)
       ++ [Term.terminalWrite (Term.tname t) data]
  /\ Term.received socketID (Term.emitted (Term.onData E ref data left))
     = Term.received socketID (Term.emitted s)
  /\ (~ In socketID (Term.socketList t) ->
      Term.viewers ref left = Term.viewers ref s
      /\ Term.viewers ref (Term.leave ref socketID joined) = Term.viewers ref s).
Proof.
  intros Ht Hnd joined left.
  set (t1 := if existsb (String.eqb socketID) (Term.socketList t) then t
             else Term.set_sockets (Term.socketList t ++ [socketID]) t).
  assert (Term.heap joined !! ref = Some t1) as Hj.
  { unfold joined, Term.join. now rewrite heap_update_eq, Ht. }
  assert (Term.tname t1 = Term.tname t) as Hname.
  { unfold t1. now destruct (existsb _ _). }
  assert (In socketID (Term.socketList t1)) as Hin.
  { unfold t1. destruct (existsb _ _) eqn:Hex.
    - now apply existsb_eqb_In.
    - cbn. apply in_or_app. right. now left. }
  assert (NoDup (Term.socketList t1)) as Hnd1.
  { unfold t1. destruct (existsb _ _) eqn:Hex; [exact Hnd|].
    cbn. apply NoDup_app. repeat split; [exact Hnd | | apply NoDup_singleton].
    intros x Hx Hx'. apply list_elem_of_In in Hx.
    apply list_elem_of_In in Hx'. destruct Hx' as [<-|[]].
    apply existsb_eqb_In in Hx. congruence. }
  assert (Term.heap left !! ref
          = Some (Term.set_sockets
                    (List.filter (fun i => negb (String.eqb socketID i))
                       (Term.socketList t)) t)) as Hl.
  { unfold left, Term.leave. now rewrite heap_update_eq, Ht. }
  split; [unfold Term.viewers; now rewrite Hj|].
  split; [unfold Term.viewers; now rewrite Hj|].
  split.
  { unfold Term.join at 1. unfold Term.update_heap.
    destruct joined as [h tm nx pr inp em re] eqn:Ej. cbn [Term.heap] in *.
    f_equal. apply map_eq. intros r.
    destruct (decide (ref = r)) as [<-|Hne].
    - rewrite lookup_alter_eq, Hj. cbn.
      apply existsb_eqb_In in Hin. now rewrite Hin.
    - now rewrite lookup_alter_ne. }
  split.
  { unfold Term.onData. rewrite Hj. unfold Term.broadcast, Term.emit.
    cbn [Term.emitted Term.update_heap]. rewrite received_app, Hname.
    rewrite (received_broadcast_in _ _ _ Hnd1 Hin).
    unfold joined, Term.join. reflexivity. }
  split.
  { unfold Term.onData. rewrite Hl. unfold Term.broadcast, Term.emit.
    cbn [Term.emitted Term.update_heap Term.socketList Term.set_sockets].
    rewrite received_app, received_broadcast_out by apply filter_out_gone.
    rewrite app_nil_r. unfold left, Term.leave. reflexivity. }
  intros Hout. unfold Term.viewers. rewrite Hl, Ht. cbn [Term.socketList Term.set_sockets].
  split; [now apply filter_out_absent|].
  unfold Term.leave. rewrite heap_update_eq, Hj. cbn.
  unfold t1. destruct (existsb _ _) eqn:Hex.
  - apply existsb_eqb_In in Hex. contradiction.
  - cbn. rewrite List.filter_app. cbn [List.filter].
    rewrite String.eqb_refl. cbn [negb]. rewrite app_nil_r.
    now apply filter_out_absent.
Qed.

(** X25.  The exit handler is final: every joined socket is sent the
    exit code once and nobody else is; afterwards the terminal has no
    viewers and no timers and its name is free, so output that still
    arrives reaches nobody and the timers do nothing; the callback, if
    one was registered, is called with the code. *)
Theorem exit_is_final (E : Term.env) (ref : nat) (s : Term.sys)
    (t : Term.terminal) (exitCode : JS.number) :
  Term.heap s !! ref = Some t ->
  NoDup (Term.socketList t) ->
  let s' := Term.exit ref exitCode s in
  (forall socketID,
      Term.received socketID (Term.emitted s')
      = Term.received socketID (Term.emitted s)
        ++ (if existsb (String.eqb socketID) (Term.socketList t)
            then [Term.terminalExit (Term.tname t) exitCode] else []))
  /\ Term.viewers ref s' = []
  /\ Term.getTerminal (Term.tname t) s' = None
  /\ Term.resolved s'
     = (if Term.awaited t then Term.resolved s ++ [(ref, exitCode)]
        else Term.resolved s)
  /\ (forall data, Term.emitted (Term.onData E ref data s') = Term.emitted s')
  /\ Term.keepAliveTick ref s' = s'
  /\ (forall connected, Term.kickTick connected ref s' = s').
Proof.
  intros Ht Hnd s'.
  assert (Term.heap s' !! ref
          = Some (Term.set_timers false false (Term.set_sockets [] t))) as Ht'.
  { unfold s', Term.exit. rewrite Ht. cbn [Term.heap]. apply lookup_insert_eq. }
  split.
  { intros socketID. unfold s', Term.exit. rewrite Ht.
    cbn [Term.emitted Term.broadcast Term.emit]. rewrite received_app. f_equal.
    destruct (existsb (String.eqb socketID) (Term.socketList t)) eqn:Hex.
    - apply received_broadcast_in; [exact Hnd | now apply existsb_eqb_In].
    - apply received_broadcast_out. intros Hin.
      apply existsb_eqb_In in Hin. congruence. }
  split; [unfold Term.viewers; now rewrite Ht'|].
  split.
  { unfold s', Term.exit, Term.getTerminal. rewrite Ht.
    cbn [Term.terminalMap]. apply lookup_delete_eq. }
  split; [unfold s', Term.exit; now rewrite Ht|].
  split.
  { intros data. unfold Term.onData. rewrite Ht'.
    unfold Term.broadcast, Term.emit. cbn. now rewrite app_nil_r. }
  split.
  - unfold Term.keepAliveTick. now rewrite Ht'.
  - intros connected. unfold Term.kickTick. now rewrite Ht'.
Qed.

(** X26.  The keep-alive timer closes a running terminal exactly when it
    finds no viewer: it then sends Ctrl+C once and stops itself, without
    unregistering the terminal; with a viewer, or on a terminal whose
    keep-alive timer is not set, it does nothing. *)
Theorem keepAliveTick_closes_when_empty (ref : nat) (s : Term.sys)
    (t : Term.terminal) :
  Term.heap s !! ref = Some t ->
  (Term.keepAliveInterval t = true -> Term.started t = true ->
   Term.socketList t = [] ->
   Term.input (Term.keepAliveTick ref s)
   = Term.input s ++ [(ref, String "003"%char EmptyString)]
   /\ Term.terminalMap (Term.keepAliveTick ref s) = Term.terminalMap s
   /\ Term.keepAliveTick ref (Term.keepAliveTick ref s) = Term.keepAliveTick ref s)
  /\ (Term.socketList t <> [] -> Term.keepAliveTick ref s = s)
  /\ (Term.keepAliveInterval t = false -> Term.keepAliveTick ref s = s).
Proof.
  intros Ht. split; [|split].
  - intros Hka Hst Hempty.
    assert (Term.keepAliveTick ref s
            = {| Term.heap :=
                   alter (fun t => Term.set_timers false (Term.kickInterval t) t)
                     ref (Term.heap s);
                 Term.terminalMap := Term.terminalMap s;
                 Term.next := Term.next s;
                 Term.processes := Term.processes s;
                 Term.input := Term.input s ++ [(ref, String "003"%char EmptyString)];
                 Term.emitted := Term.emitted s;
                 Term.resolved := Term.resolved s |}) as Hk.
    { unfold Term.keepAliveTick, Term.close. rewrite Ht, Hka, Hempty, Hst.
      reflexivity. }
    rewrite Hk. repeat split.
    unfold Term.keepAliveTick at 1. cbn [Term.heap].
    rewrite lookup_alter_eq, Ht. reflexivity.
  - intros Hne. unfold Term.keepAliveTick. rewrite Ht.
    destruct (Term.socketList t); [contradiction|].
    cbn. now rewrite andb_false_r.
  - intros Hka. unfold Term.keepAliveTick. now rewrite Ht, Hka.
Qed.

Lemma joinCombinedTerminal_new (E : Term.env) (name : string)
    (arguments : list string) (dir socketID : string) (s : Term.sys) :
  Term.terminalMap s !! name = None ->
  Term.spawn_error E {| sp_file := "docker"; sp_args := arguments; sp_cwd := dir |}
  = None ->
  let s' := Term.joinCombinedTerminal E name arguments dir socketID s in
  Term.terminalMap s' = <[name := Term.next s]> (Term.terminalMap s)
  /\ Term.processes s'
     = Term.processes s
       ++ [(Term.next s,
            {| sp_file := "docker"; sp_args := arguments; sp_cwd := dir |})]
  /\ Term.input s' = Term.input s
  /\ exists t,
      Term.heap s' !! Term.next s = Some t
      /\ Term.socketList t = [socketID]
      /\ Term.started t = true
      /\ Term.keepAliveInterval t = true.
Proof.
  intros Hfree Hspawn s'. unfold s', Term.joinCombinedTerminal,
    Term.getOrCreateTerminal, Term.getTerminal. rewrite Hfree.
  cbn [Term.construct]. unfold Term.start, Term.join.
  rewrite !heap_update_eq. cbn [Term.heap]. rewrite lookup_insert_eq.
  cbn [fmap option_fmap option_map Term.socketList Term.set_cols Term.set_rows
       Term.set_enableKeepAlive existsb Term.started Term.set_sockets app].
  change (Term.command_of _)
    with {| sp_file := "docker"; sp_args := arguments; sp_cwd := dir |}.
  rewrite Hspawn. cbn [Term.terminalMap Term.processes Term.input Term.heap
                       Term.update_heap].
  repeat split. eexists. rewrite lookup_insert_eq. split; [reflexivity|].
  now repeat split.
Qed.

Lemma joinCombinedTerminal_again (E : Term.env) (name : string)
    (arguments : list string) (dir socketID : string) (s : Term.sys)
    (ref : nat) (t : Term.terminal) :
  Term.terminalMap s !! name = Some ref ->
  Term.heap s !! ref = Some t ->
  Term.started t = true ->
  let s' := Term.joinCombinedTerminal E name arguments dir socketID s in
  Term.terminalMap s' = Term.terminalMap s
  /\ Term.processes s' = Term.processes s
  /\ Term.input s' = Term.input s
  /\ exists t',
      Term.heap s' !! ref = Some t'
      /\ Term.socketList t'
         = (if existsb (String.eqb socketID) (Term.socketList t)
            then Term.socketList t else Term.socketList t ++ [socketID])
      /\ Term.started t' = true
      /\ Term.keepAliveInterval t' = Term.keepAliveInterval t.
Proof.
  intros Hreg Ht Hst s'. unfold s', Term.joinCombinedTerminal,
    Term.getOrCreateTerminal, Term.getTerminal. rewrite Hreg.
  unfold Term.start, Term.join. rewrite !heap_update_eq, Ht.
  cbn [fmap option_fmap option_map Term.socketList Term.set_cols Term.set_rows
       Term.set_enableKeepAlive].
  assert (Term.started
            (if existsb (String.eqb socketID) (Term.socketList t)
             then Term.set_cols (Term.COMBINED_TERMINAL_COLS E)
                    (Term.set_rows (Term.COMBINED_TERMINAL_ROWS E)
                       (Term.set_enableKeepAlive true t))
             else Term.set_sockets (Term.socketList t ++ [socketID])
                    (Term.set_cols (Term.COMBINED_TERMINAL_COLS E)
                       (Term.set_rows (Term.COMBINED_TERMINAL_ROWS E)
                          (Term.set_enableKeepAlive true t)))) = true) as ->
    by (destruct (existsb _ _); exact Hst).
  cbn [Term.terminalMap Term.processes Term.input Term.heap Term.update_heap].
  repeat split. rewrite !lookup_alter_eq, Ht.
  cbn [fmap option_fmap option_map Term.socketList Term.set_cols Term.set_rows
       Term.set_enableKeepAlive].
  eexists. split; [reflexivity|].
  destruct (existsb (String.eqb socketID) (Term.socketList t)); cbn;
    now repeat split.
Qed.

(** X27.  Two sockets that join the combined log terminal of a stack
    share one process: the second call finds the registered terminal,
    spawns nothing and only adds its viewer.  Once both have left, the
    next round of the keep-alive timer sends Ctrl+C to that process. *)
Theorem combined_terminal_is_shared (E : Term.env) (name : string)
    (arguments : list string) (dir a b : string) (s : Term.sys) :
  Term.terminalMap s !! name = None ->
  Term.spawn_error E {| sp_file := "docker"; sp_args := arguments; sp_cwd := dir |}
  = None ->
  a <> b ->
  let ref := Term.next s in
  let s2 := Term.joinCombinedTerminal E name arguments dir b
              (Term.joinCombinedTerminal E name arguments dir a s) in
  let s4 := Term.leaveCombinedTerminal name b
              (Term.leaveCombinedTerminal name a s2) in
  Term.processes s2
  = Term.processes s
    ++ [(ref, {| sp_file := "docker"; sp_args := arguments; sp_cwd := dir |})]
  /\ Term.getTerminal name s2 = Some ref
  /\ Term.viewers ref s2 = [a; b]
  /\ Term.viewers ref s4 = []
  /\ Term.input (Term.keepAliveTick ref s4)
     = Term.input s ++ [(ref, String "003"%char EmptyString)].
Proof.
  intros Hfree Hspawn Hab ref s2 s4.
  destruct (joinCombinedTerminal_new E name arguments dir a s Hfree Hspawn)
    as (Htm1 & Hpr1 & Hin1 & t1 & Ht1 & Hso1 & Hst1 & Hka1).
  set (s1 := Term.joinCombinedTerminal E name arguments dir a s) in *.
  assert (Term.terminalMap s1 !! name = Some ref) as Hreg1
    by (rewrite Htm1; apply lookup_insert_eq).
  destruct (joinCombinedTerminal_again E name arguments dir b s1 ref t1
              Hreg1 Ht1 Hst1) as (Htm2 & Hpr2 & Hin2 & t2 & Ht2 & Hso2 & Hst2 & Hka2).
  fold s2 in Htm2, Hpr2, Hin2, Ht2.
  rewrite Hso1 in Hso2. cbn [existsb] in Hso2.
  assert (String.eqb b a = false) as Hba by (apply String.eqb_neq; congruence).
  rewrite Hba in Hso2. cbn in Hso2.
  assert (Term.terminalMap s2 !! name = Some ref) as Hreg2 by now rewrite Htm2.
  assert (Term.heap s4 !! ref
          = Some (Term.set_sockets [] (Term.set_sockets [b] t2))
          /\ Term.input s4 = Term.input s) as [Ht4 Hin4].
  { unfold s4, Term.leaveCombinedTerminal, Term.getTerminal. rewrite Hreg2.
    cbn [Term.leave Term.update_heap Term.terminalMap]. rewrite Hreg2.
    unfold Term.leave. rewrite !heap_update_eq, Ht2.
    cbn [fmap option_fmap option_map Term.input Term.update_heap].
    rewrite Hso2. cbn [List.filter Term.socketList Term.set_sockets].
    assert (String.eqb a b = false) as Hab' by (now apply String.eqb_neq).
    rewrite String.eqb_refl, Hab'. cbn [negb List.filter].
    rewrite String.eqb_refl. cbn [negb].
    split; [reflexivity | congruence]. }
  repeat split.
  - now rewrite Hpr2, Hpr1.
  - exact Hreg2.
  - unfold Term.viewers. now rewrite Ht2.
  - unfold Term.viewers. now rewrite Ht4.
  - unfold Term.keepAliveTick, Term.close. rewrite Ht4.
    cbn [Term.keepAliveInterval Term.set_sockets Term.socketList length
         Term.started]. rewrite Hka2, Hka1, Hst2. cbn. now rewrite Hin4.
Qed.

(** X28.  [getOrCreateAttachTerminal] replaces a terminal of another
    class that holds the name: it registers a new attach terminal under
    it and starts the attach process.  The terminal replaced is not
    closed, and when it exits later its handler deletes the name from
    the registry, so the attach terminal, still running, is no longer
    found under its name. *)
Theorem attach_replaces_other_terminal (E : Term.env)
    (name serviceName dir logs : string) (s : Term.sys) (old : nat)
    (t : Term.terminal) :
  Term.terminalMap s !! name = Some old ->
  Term.heap s !! old = Some t ->
  Term.tname t = name ->
  Term.tkind t <> Term.Attach ->
  Term.heap s !! Term.next s = None ->
  Term.spawn_error E
    {| sp_file := "docker";
       sp_args := ["compose"; "attach"; "--sig-proxy=false"; serviceName];
       sp_cwd := dir |} = None ->
  let r := Term.getOrCreateAttachTerminal E name serviceName dir logs s in
  fst r = Term.next s
  /\ fst r <> old
  /\ Term.getTerminal name (snd r) = Some (fst r)
  /\ Term.processes (snd r)
     = Term.processes s
       ++ [(fst r,
            {| sp_file := "docker";
               sp_args := ["compose"; "attach"; "--sig-proxy=false"; serviceName];
               sp_cwd := dir |})]
  /\ Term.heap (snd r) !! old = Some t
  /\ forall exitCode,
       Term.getTerminal name (Term.exit old exitCode (snd r)) = None
       /\ Term.processes (Term.exit old exitCode (snd r)) = Term.processes (snd r).
Proof.
  intros Hreg Ht Hname Hkind Hfresh Hspawn r.
  assert (Term.next s <> old) as Hne
    by (intros Heq; rewrite Heq in Hfresh; congruence).
  assert (r = (Term.next s,
               Term.start E (Term.next s)
                 (snd (Term.construct E Term.Attach name "docker"
                         ["compose"; "attach"; "--sig-proxy=false"; serviceName]
                         dir s)))) as Hr.
  { unfold r, Term.getOrCreateAttachTerminal, Term.getTerminal.
    rewrite Hreg, Ht.
    assert (match Term.tkind t with Term.Attach => Some old | _ => None end = None)
      as -> by (destruct (Term.tkind t); congruence).
    cbn [Term.construct]. unfold Term.startWithLogs.
    cbn [Term.heap]. rewrite lookup_insert_eq. f_equal. f_equal.
    unfold Term.broadcast, Term.emit. cbn. now rewrite app_nil_r. }
  rewrite Hr. cbn [fst snd]. unfold Term.start. cbn [Term.construct snd Term.heap].
  rewrite lookup_insert_eq. cbn [Term.started].
  change (Term.command_of _)
    with {| sp_file := "docker";
            sp_args := ["compose"; "attach"; "--sig-proxy=false"; serviceName];
            sp_cwd := dir |}.
  rewrite Hspawn. cbn [Term.processes Term.heap Term.terminalMap].
  assert (forall h : gmap nat Term.terminal, forall x y,
             <[Term.next s := x]> (<[Term.next s := y]> h) !! old = h !! old)
    as Hold by (intros; now rewrite !lookup_insert_ne).
  split; [reflexivity|]. split; [exact Hne|].
  split; [unfold Term.getTerminal; cbn; apply lookup_insert_eq|].
  split; [reflexivity|]. split; [now rewrite Hold|].
  intros exitCode. unfold Term.exit, Term.getTerminal.
  cbn [Term.heap]. rewrite Hold, Ht. cbn [Term.terminalMap Term.processes
    Term.broadcast Term.emit]. rewrite Hname. split; [apply lookup_delete_eq|].
  reflexivity.
Qed.

(** X29.  [getOrCreateAttachTerminal] reuses a running attach terminal
    registered under the name: no process is started, the registry is
    unchanged, and the logs fetched for this call are sent once more to
    every viewer that is joined. *)
Theorem attach_reuses_attach_terminal (E : Term.env)
    (name serviceName dir logs : string) (s : Term.sys) (ref : nat)
    (t : Term.terminal) :
  Term.terminalMap s !! name = Some ref ->
  Term.heap s !! ref = Some t ->
  Term.tkind t = Term.Attach ->
  Term.started t = true ->
  NoDup (Term.socketList t) ->
  let r := Term.getOrCreateAttachTerminal E name serviceName dir logs s in
  fst r = ref
  /\ Term.processes (snd r) = Term.processes s
  /\ Term.terminalMap (snd r) = Term.terminalMap s
  /\ Term.heap (snd r) = Term.heap s
  /\ forall socketID,
       Term.received socketID (Term.emitted (snd r))
       = Term.received socketID (Term.emitted s)
         ++ (if existsb (String.eqb socketID) (Term.socketList t)
             then [Term.terminalWrite (Term.tname t) logs] else []).
Proof.
  intros Hreg Ht Hkind Hst Hnd r.
  assert (r = (ref, Term.broadcast t (Term.terminalWrite (Term.tname t) logs) s))
    as Hr.
  { unfold r, Term.getOrCreateAttachTerminal, Term.getTerminal.
    rewrite Hreg, Ht, Hkind. unfold Term.startWithLogs. rewrite Ht.
    unfold Term.start. cbn [Term.broadcast Term.emit Term.heap].
    now rewrite Ht, Hst. }
  rewrite Hr. cbn [fst snd Term.broadcast Term.emit Term.processes
                   Term.terminalMap Term.heap Term.emitted].
  repeat split. intros socketID. rewrite received_app. f_equal.
  destruct (existsb (String.eqb socketID) (Term.socketList t)) eqn:Hex.
  - apply received_broadcast_in; [exact Hnd | now apply existsb_eqb_In].
  - apply received_broadcast_out. intros Hin.
    apply existsb_eqb_In in Hin. congruence.
Qed.

Lemma filter_twice {A : Type} (f g : A -> bool) (l : list A) :
  List.filter f (List.filter g l) = List.filter (fun x => g x && f x) l.
Proof.
  induction l as [|a l IH]; [reflexivity|].
  cbn [List.filter]. destruct (g a); cbn [List.filter andb].
  - now rewrite IH.
  - exact IH.
Qed.

Lemma kick_loop (connected : string -> bool) (ref : nat) (l : list string)
    (s : Term.sys) (t : Term.terminal) :
  Term.heap s !! ref = Some t ->
  let s' := fold_left
              (fun acc socketID =>
                 if connected socketID then acc else Term.leave ref socketID acc)
              l s in
  Term.viewers ref s'
  = List.filter
      (fun i => negb (existsb (fun j => negb (connected j) && String.eqb j i) l))
      (Term.socketList t)
  /\ Term.emitted s' = Term.emitted s
  /\ Term.terminalMap s' = Term.terminalMap s
  /\ Term.processes s' = Term.processes s
  /\ Term.input s' = Term.input s.
Proof.
  revert s t. induction l as [|a l IH]; intros s t Ht.
  - cbn [fold_left existsb negb]. unfold Term.viewers. rewrite Ht.
    repeat split.
    induction (Term.socketList t) as [|i L IHL]; [reflexivity|].
    cbn [List.filter]. now rewrite <- IHL.
  - cbn [fold_left existsb].
    destruct (connected a) eqn:Ha.
    + cbn [negb andb orb]. apply (IH s t Ht).
    + cbn [negb andb].
      assert (Term.heap (Term.leave ref a s) !! ref
              = Some (Term.set_sockets
                        (List.filter (fun i => negb (String.eqb a i))
                           (Term.socketList t)) t)) as Ht1.
      { unfold Term.leave. now rewrite heap_update_eq, Ht. }
      destruct (IH _ _ Ht1) as (Hv & He & Hm & Hp & Hi).
      cbn zeta in *. rewrite Hv, He, Hm, Hp, Hi.
      repeat split. cbn [Term.set_sockets Term.socketList].
      rewrite filter_twice. apply List.filter_ext. intros i.
      now rewrite negb_orb.
Qed.

(** X30.  One round of the timer that kicks disconnected clients removes
    from the terminal exactly the joined sockets that are not connected:
    the connected ones stay, in their order.  Nothing is sent to any
    socket, the registry and the processes are untouched. *)
Theorem kickTick_removes_disconnected (connected : string -> bool) (ref : nat)
    (s : Term.sys) (t : Term.terminal) :
  Term.heap s !! ref = Some t ->
  Term.kickInterval t = true ->
  let s' := Term.kickTick connected ref s in
  Term.viewers ref s' = List.filter connected (Term.socketList t)
  /\ Term.emitted s' = Term.emitted s
  /\ Term.terminalMap s' = Term.terminalMap s
  /\ Term.processes s' = Term.processes s
  /\ Term.input s' = Term.input s.
Proof.
  intros Ht Hk. unfold Term.kickTick. rewrite Ht, Hk.
  destruct (kick_loop connected ref (Term.socketList t) s t Ht)
    as (Hv & He & Hm & Hp & Hi).
  cbn zeta in *. rewrite Hv, He, Hm, Hp, Hi. repeat split.
  apply List.filter_ext_in. intros i Hin.
  destruct (connected i) eqn:Hc.
  - apply negb_true_iff.
    destruct (existsb _ _) eqn:Hex; [|reflexivity].
    apply existsb_exists in Hex as (j & _ & Hj).
    apply andb_prop in Hj as [Hj1 Hj2].
    apply String.eqb_eq in Hj2. subst j. rewrite Hc in Hj1. discriminate.
  - apply negb_false_iff. apply existsb_exists. exists i.
    split; [exact Hin|]. now rewrite Hc, String.eqb_refl.
Qed.

(** ** Closed examples of the classifier *)

(** The two cases of the specification: "exited(3)" with three clean
    exits is running, with one failed container it is exited. *)
Example statusConvert_three_clean :
  statusConvert status_line three_clean (compose_entry "web" "exited(3)")
  = Ret RUNNING.
Proof. reflexivity. Qed.

Example statusConvert_one_failed :
  statusConvert status_line one_failed (compose_entry "web" "exited(3)")
  = Ret EXITED.
Proof. reflexivity. Qed.



Lemma statusConvert_shapes_witness :
  statusConvert status_line one_failed (compose_entry "web" "created(2)")
  = Ret CREATED_STACK
  /\ statusConvert status_line one_failed (compose_entry "web" "running(2)")
     = Ret RUNNING
  /\ statusConvert status_line one_failed (compose_entry "web" "paused(1)")
     = Ret UNKNOWN.
Proof.
  split; [|split].
  - apply (statusConvert_shapes status_line one_failed (compose_entry "web" "created(2)")).
    reflexivity.
  - apply (statusConvert_shapes status_line one_failed (compose_entry "web" "running(2)"));
      reflexivity.
  - apply (statusConvert_shapes status_line one_failed (compose_entry "web" "paused(1)"));
      reflexivity.
Defined.

(** C2 as stated fails: a status that starts with "running" and contains
    "exited" is classified from the containers, here as [EXITED]. *)
Lemma statusConvert_running_then_exited :
  JS.startsWith "running" (sj_Status (compose_entry "web" "running(1), exited(1)")) = true
  /\ statusConvert status_line no_output (compose_entry "web" "running(1), exited(1)")
     = Ret EXITED
  /\ statusConvert status_line no_output (compose_entry "web" "running(1), exited(1)")
     <> Ret RUNNING.
Proof. repeat split; try reflexivity. discriminate. Qed.

(** ** Closed examples of the operations *)

Example deploy_web_spawn :
  spawned (world (snd (deploy "/opt/stacks" composeTerminalName (exits_with 0)
                         browser (web_on disk_web))))
  = [{| sp_file := "docker";
        sp_args := ["compose"; "up"; "-d"; "--remove-orphans"];
        sp_cwd := "/opt/stacks/web" |}].
Proof. vm_compute. reflexivity. Qed.

Lemma deploy_runs_compose_up_witness :
  fst (deploy "/opt/stacks" composeTerminalName (exits_with 0) browser
         (web_on disk_web)) = Ret (JS.Num 0).
Proof.
  apply (deploy_runs_compose_up "/opt/stacks" composeTerminalName (exits_with 0)
           browser (web_on disk_web)); vm_compute; reflexivity.
Defined.

(** C3 as stated fails: the error thrown for exit code 1 carries the
    action, and the session name "compose--web" occurs nowhere in it. *)
Lemma deploy_error_without_session_name :
  fst (deploy "/opt/stacks" composeTerminalName (exits_with 1) browser
         (web_on disk_web))
  = Throw (Error "Failed to deploy, please check the terminal output for more information.")
  /\ JS.includes (composeTerminalName (endpoint browser) (name web))
       "Failed to deploy, please check the terminal output for more information."
     = false.
Proof. split; vm_compute; reflexivity. Qed.

Lemma update_steps_witness :
  update "/opt/stacks" composeTerminalName status_line no_output
    (Some [compose_entry "web" "running(1)"]) (exits_with 0) browser
    (web_on disk_web)
  = (Ret (JS.Num 0),
     {| this := with_status RUNNING web;
        world :=
          {| disk := disk_web; terminalMap := ∅;
             spawned :=
               [{| sp_file := "docker"; sp_args := ["compose"; "pull"];
                   sp_cwd := "/opt/stacks/web" |};
                {| sp_file := "docker";
                   sp_args := ["compose"; "up"; "-d"; "--remove-orphans"];
                   sp_cwd := "/opt/stacks/web" |};
                {| sp_file := "docker";
                   sp_args := ["image"; "prune"; "--all"; "--force"];
                   sp_cwd := "/opt/stacks/web" |}] |} |}).
Proof.
  pose proof (update_steps "/opt/stacks" composeTerminalName status_line no_output
                (Some [compose_entry "web" "running(1)"]) (exits_with 0) browser
                (web_on disk_web)) as H.
  destruct H as (_ & _ & _ & _ & H); [vm_compute; reflexivity|].
  rewrite H; vm_compute; reflexivity.
Defined.

(** C4 as stated fails: when the pull ends with code 1, [update] does not
    return 1, it throws. *)
Lemma update_throws_on_failed_pull :
  pull_fails {| sp_file := "docker"; sp_args := ["compose"; "pull"];
                sp_cwd := "/opt/stacks/web" |} = JS.Num 1
  /\ fst (update "/opt/stacks" composeTerminalName status_line no_output
            (Some [compose_entry "web" "running(1)"]) pull_fails browser
            (web_on disk_web))
     = Throw (Error "Failed to pull, please check the terminal output for more information.")
  /\ fst (update "/opt/stacks" composeTerminalName status_line no_output
            (Some [compose_entry "web" "running(1)"]) pull_fails browser
            (web_on disk_web))
     <> Ret (JS.Num 1).
Proof.
  split; [reflexivity|].
  assert (fst (update "/opt/stacks" composeTerminalName status_line no_output
            (Some [compose_entry "web" "running(1)"]) pull_fails browser
            (web_on disk_web))
          = Throw (Error "Failed to pull, please check the terminal output for more information."))
    as H by (vm_compute; reflexivity).
  split; [exact H | rewrite H; discriminate].
Qed.

Lemma delete_removes_directory_witness :
  forceDelete "/opt/stacks" composeTerminalName (exits_with 0) browser
    (web_on disk_web)
  = (Ret (JS.Num 0),
     without_dir "/opt/stacks"
       (ran [{| sp_file := "docker";
                sp_args := ["compose"; "down"; "-v"; "--remove-orphans"];
                sp_cwd := "/opt/stacks/web" |}] (web_on disk_web)))
  /\ exists_on
       (disk (world (without_dir "/opt/stacks"
          (ran [{| sp_file := "docker";
                   sp_args := ["compose"; "down"; "-v"; "--remove-orphans"];
                   sp_cwd := "/opt/stacks/web" |}] (web_on disk_web)))))
       "/opt/stacks/web/compose.yaml" = false.
Proof.
  pose proof (delete_removes_directory "/opt/stacks" composeTerminalName
                (exits_with 0) browser {| deleteStackFiles := true |}
                (web_on disk_web)) as (Hrun & _ & _ & Hgone & _).
  destruct Hrun as (_ & _ & Hforce & _); [vm_compute; reflexivity|].
  split.
  - rewrite Hforce; vm_compute; reflexivity.
  - apply Hgone. vm_compute. reflexivity.
Defined.

(** C5 as stated fails: [delete] without [deleteStackFiles] succeeds and
    leaves the project's directory on the disk. *)
Lemma delete_keeps_directory :
  fst (delete_stack "/opt/stacks" composeTerminalName (exits_with 0) browser
         {| deleteStackFiles := false |} (web_on disk_web)) = Ret (JS.Num 0)
  /\ exists_on
       (disk (world (snd (delete_stack "/opt/stacks" composeTerminalName
                            (exits_with 0) browser
                            {| deleteStackFiles := false |} (web_on disk_web)))))
       "/opt/stacks/web" = true.
Proof. split; vm_compute; reflexivity. Qed.

Lemma save_validates_first_witness :
  exists s',
    save "/opt/stacks" rejects_open_brace true
      {| this := with_fileCache ∅
                   {| name := "Web!"; _status := UNKNOWN;
                      _composeFileName := "compose.yaml";
                      _composeOverrideFileName := "compose.override.yaml";
                      fileCache := ∅ |};
         world := idle disk_web |}
    = (Throw (ValidationError "Stack name can only contain [a-z][0-9] _ - only"), s')
    /\ world s' = idle disk_web.
Proof.
  destruct (save_validates_first "/opt/stacks" rejects_open_brace true
              {| this := with_fileCache ∅
                           {| name := "Web!"; _status := UNKNOWN;
                              _composeFileName := "compose.yaml";
                              _composeOverrideFileName := "compose.override.yaml";
                              fileCache := ∅ |};
                 world := idle disk_web |}) as (s' & _ & Hw & Hsave).
  exists s'. split; [apply Hsave; vm_compute; reflexivity | exact Hw].
Defined.

(** C6 as stated fails: a primary text that does not parse makes [save]
    raise the parser's error, which is not a [ValidationError]. *)
Lemma save_yaml_error_is_not_validation_error :
  matches_name_pattern "web" = true
  /\ rejects_open_brace "{" = false
  /\ fst (save "/opt/stacks" rejects_open_brace true
            {| this := web_edited "{"; world := idle ∅ |})
     = Throw YAMLParseError
  /\ forall message,
       fst (save "/opt/stacks" rejects_open_brace true
              {| this := web_edited "{"; world := idle ∅ |})
       <> Throw (ValidationError message).
Proof.
  split; [reflexivity|]. split; [reflexivity|].
  assert (fst (save "/opt/stacks" rejects_open_brace true
                 {| this := web_edited "{"; world := idle ∅ |})
          = Throw YAMLParseError) as H by (vm_compute; reflexivity).
  split; [exact H | intros message; rewrite H; discriminate].
Qed.

Lemma getComposeOptions_env_files_witness :
  fst (getComposeOptions "/opt/stacks" "up" ["-d"] (web_on disk_web))
  = Ret ["compose"; "up"; "-d"].
Proof.
  destruct (getComposeOptions_env_files "/opt/stacks" "up" ["-d"] (web_on disk_web))
    as (options & Hrun & Hplain & _).
  rewrite Hrun. cbn [fst]. f_equal. apply Hplain. vm_compute. reflexivity.
Defined.

(** C7 as stated fails: with the shared file alone, and no
    project-local [.env], the argument vector is augmented all the same. *)
Lemma getComposeOptions_shared_file_alone :
  exists_on disk_global (path_join "/opt/stacks" "global.env") = true
  /\ exists_on disk_global (path_join (stack_path "/opt/stacks" web) ".env") = false
  /\ fst (getComposeOptions "/opt/stacks" "up" ["-d"] (web_on disk_global))
     = Ret ["compose"; "--env-file"; "../global.env"; "up"; "-d"]
  /\ fst (getComposeOptions "/opt/stacks" "up" ["-d"] (web_on disk_global))
     <> Ret ["compose"; "up"; "-d"].
Proof.
  split; [vm_compute; reflexivity|]. split; [vm_compute; reflexivity|].
  assert (fst (getComposeOptions "/opt/stacks" "up" ["-d"] (web_on disk_global))
          = Ret ["compose"; "--env-file"; "../global.env"; "up"; "-d"]) as H
    by (vm_compute; reflexivity).
  split; [exact H | rewrite H; discriminate].
Qed.

Lemma accessor_never_raises_witness :
  fst (accessor "/opt/stacks" Primary (web_on disk_web)) = Ret "services: {}"
  /\ fst (accessor "/opt/stacks" Environment (web_on disk_web)) = Ret "".
Proof.
  split.
  - destruct (accessor_never_raises "/opt/stacks" Primary (web_on disk_web))
      as (v & s' & Hrun & _ & Hmiss & _).
    rewrite Hrun. cbn [fst]. f_equal.
    apply Hmiss; [reflexivity | vm_compute; reflexivity].
  - destruct (accessor_never_raises "/opt/stacks" Environment (web_on disk_web))
      as (v & s' & Hrun & _ & Hmiss & _).
    rewrite Hrun. cbn [fst]. f_equal.
    apply Hmiss; [reflexivity | intros c; vm_compute; discriminate].
Defined.

Lemma validateEnvFormat_iff_witness :
  fst (validateEnvFormat "/opt/stacks"
         {| this := with_fileCache {["env" := "DEBUG"]} web; world := idle disk_web |})
  = Throw (ValidationError "Invalid .env format")
  /\ fst (validateEnvFormat "/opt/stacks"
            {| this := with_fileCache {["env" := String "A" (String LF "B")]} web;
               world := idle disk_web |})
     = Ret tt.
Proof.
  split.
  - apply (validateEnvFormat_iff "/opt/stacks"
             {| this := with_fileCache {["env" := "DEBUG"]} web;
                world := idle disk_web |}).
    vm_compute. repeat split; discriminate.
  - apply (validateEnvFormat_iff "/opt/stacks"
             {| this := with_fileCache {["env" := String "A" (String LF "B")]} web;
                world := idle disk_web |}).
    vm_compute. reflexivity.
Defined.

Example findComposeFileName_docker_compose :
  findComposeFileName "/opt/stacks"
    ["compose.yaml"; "docker-compose.yaml"; "docker-compose.yml"; "compose.yml"]
    (<["/opt/stacks/web/docker-compose.yml" := File "services: {}"]>
       (<["/opt/stacks/web/compose.yml" := File "services: {}"]> ∅)) web
  = "docker-compose.yml".
Proof. vm_compute. reflexivity. Qed.

Example findComposeFileName_fallback :
  findComposeFileName "/opt/stacks" ["docker-compose.yaml"; "compose.yml"] ∅ web
  = "compose.yaml".
Proof. vm_compute. reflexivity. Qed.

(** ** Closed examples of the further properties *)

Lemma perform_returns_zero_witness :
  exists c s',
    perform "/opt/stacks" composeTerminalName status_line no_output None
      (exits_with 0) Restart browser (web_on disk_web) = (Ret c, s')
    /\ c = JS.Num 0.
Proof.
  eexists. eexists. split; [vm_compute; reflexivity|].
  eapply (perform_returns_zero "/opt/stacks" composeTerminalName status_line
            no_output None (exits_with 0) Restart browser (web_on disk_web)).
  vm_compute. reflexivity.
Defined.

Lemma perform_busy_witness :
  perform "/opt/stacks" composeTerminalName status_line no_output None
    (exits_with 0) ForceDelete browser {| this := web; world := web_pulling |}
  = (Throw (Rejection "Another operation is already running, please try again later."),
     {| this := web; world := web_pulling |}).
Proof.
  eapply (perform_busy "/opt/stacks" composeTerminalName status_line no_output
            None (exits_with 0) ForceDelete browser
            {| this := web; world := web_pulling |}).
  vm_compute. reflexivity.
Defined.

Lemma save_checks_directory_witness :
  fst (save "/opt/stacks" rejects_open_brace true
         {| this := web_edited "services: {}"; world := idle disk_web |})
  = Throw (ValidationError "Stack name already exists").
Proof.
  destruct (save_checks_directory "/opt/stacks" rejects_open_brace
              {| this := web_edited "services: {}"; world := idle disk_web |})
    as (H & _ & _); [vm_compute; reflexivity|].
  rewrite H; [reflexivity | vm_compute; reflexivity].
Defined.



Lemma exitLoop_order_irrelevant_witness :
  exitLoop [{| cj_Name := "web-1"; cj_State := "exited";
               cj_Status := "exited (0) 2 hours ago" |};
            {| cj_Name := "db-1"; cj_State := "running";
               cj_Status := "Up 2 hours" |}] 0
  = exitLoop [{| cj_Name := "db-1"; cj_State := "running";
                 cj_Status := "Up 2 hours" |};
              {| cj_Name := "web-1"; cj_State := "exited";
                 cj_Status := "exited (0) 2 hours ago" |}] 0.
Proof. apply exitLoop_order_irrelevant. apply perm_swap. Defined.

Lemma isComposeExitClean_nothing_exited_witness :
  isComposeExitClean status_line all_up (compose_entry "web" "exited(0)")
  = Ret RUNNING.
Proof.
  etransitivity.
  - eapply (isComposeExitClean_nothing_exited status_line all_up
              (compose_entry "web" "exited(0)")).
    + vm_compute. reflexivity.
    + vm_compute. reflexivity.
    + repeat constructor.
  - reflexivity.
Defined.

Lemma getStatusList_stops_at_throw_witness :
  _status (this (snd (updateStatus status_line no_output
                        (Some [compose_entry "db" "running(1)";
                               compose_entry "cache" "exited";
                               compose_entry "web" "running(1)"])
                        (web_on disk_web))))
  = UNKNOWN.
Proof.
  destruct (getStatusList_stops_at_throw status_line no_output
              (Some [compose_entry "db" "running(1)";
                     compose_entry "cache" "exited";
                     compose_entry "web" "running(1)"])
              [compose_entry "db" "running(1)"] [compose_entry "web" "running(1)"]
              (compose_entry "cache" "exited") TypeError) as [_ H].
  - reflexivity.
  - constructor; [exists RUNNING; reflexivity | constructor].
  - reflexivity.
  - apply H. constructor; [discriminate | constructor].
Defined.

Lemma getStatusList_last_entry_witness :
  getStatusList status_line no_output
    (Some [compose_entry "web" "created(1)"; compose_entry "web" "running(1)"])
  !! "web" = Some RUNNING.
Proof.
  destruct (getStatusList_last_entry status_line no_output
              (Some [compose_entry "web" "created(1)";
                     compose_entry "web" "running(1)"])
              [compose_entry "web" "created(1)"] []
              (compose_entry "web" "running(1)") RUNNING) as (H & _ & _).
  - reflexivity.
  - constructor; [exists CREATED_STACK; reflexivity | constructor].
  - reflexivity.
  - constructor.
  - exact H.
Defined.

Lemma getStackList_statuses_witness :
  fst (getStackList "/opt/stacks" ["compose.yaml"] ["compose.override.yaml"]
         status_line no_output (Some [compose_entry "web" "running(1)"])
         ∅ ∅ disk_web (Some ["web"]) false) !! "web"
  = Some (with_status RUNNING web).
Proof.
  destruct (getStackList_statuses "/opt/stacks" ["compose.yaml"]
              ["compose.override.yaml"] status_line no_output
              (Some [compose_entry "web" "running(1)"]) ∅ ∅ disk_web ["web"]
              [compose_entry "web" "running(1)"] eq_refl) as [H _].
  etransitivity.
  - apply (H [] (compose_entry "web" "running(1)") [] RUNNING).
    + reflexivity.
    + constructor.
    + reflexivity.
    + constructor.
    + left. discriminate.
  - vm_compute. reflexivity.
Defined.


Lemma getServiceStatusList_groups_witness :
  getServiceStatusList status_line cj_Status (fun _ => "")
    (Some ("web" ++ String LF "db" ++ String LF "web")%string) !! "web"
  = Some [("exited", ""); ("exited", "")].
Proof.
  etransitivity.
  - eapply (getServiceStatusList_groups status_line cj_Status (fun _ => "")).
    vm_compute. reflexivity.
  - vm_compute. reflexivity.
Defined.

Lemma exec_resolves_on_exit_witness :
  Term.resolved
    (Term.exit 0 (JS.Num 0)
       (snd (Term.exec host (Some "socket-1") "compose--web" "docker"
               ["compose"; "up"; "-d"; "--remove-orphans"] "/opt/stacks/web"
               no_terminals)))
  = [(0, JS.Num 0)].
Proof.
  destruct (exec_resolves_on_exit host "socket-1" "compose--web" "docker"
              ["compose"; "up"; "-d"; "--remove-orphans"] "/opt/stacks/web"
              no_terminals eq_refl eq_refl) as (_ & _ & _ & _ & H).
  destruct (H (JS.Num 0)) as (_ & Hr & _). exact Hr.
Defined.

Lemma exec_resolves_on_spawn_failure_witness :
  Term.resolved
    (snd (Term.exec (host_with (Some "spawn failed with code 2"))
            (Some "socket-1") "compose--web" "docker"
            ["compose"; "up"; "-d"; "--remove-orphans"] "/opt/stacks/web"
            no_terminals))
  = [(0, JS.Num 2)].
Proof.
  destruct (exec_resolves_on_spawn_failure
              (host_with (Some "spawn failed with code 2")) "socket-1"
              "compose--web" "docker"
              ["compose"; "up"; "-d"; "--remove-orphans"] "/opt/stacks/web"
              no_terminals "spawn failed with code 2" eq_refl eq_refl)
    as (_ & _ & _ & H & _).
  rewrite H. vm_compute. reflexivity.
Defined.

Lemma start_spawns_once_witness :
  Term.start host 0 (registered (logs_terminal Term.Plain true ["socket-1"]))
  = registered (logs_terminal Term.Plain true ["socket-1"]).
Proof.
  destruct (start_spawns_once host 0
              (registered (logs_terminal Term.Plain true ["socket-1"]))
              (logs_terminal Term.Plain true ["socket-1"]) eq_refl) as [H _].
  apply H. reflexivity.
Defined.

Lemma viewers_get_each_chunk_once_witness :
  Term.received "socket-2"
    (Term.emitted
       (Term.onData host 0 "Pulling"
          (Term.join 0 "socket-2"
             (registered (logs_terminal Term.Plain true ["socket-1"])))))
  = [Term.terminalWrite "combined--web" "Pulling"].
Proof.
  destruct (viewers_get_each_chunk_once host 0
              (registered (logs_terminal Term.Plain true ["socket-1"]))
              (logs_terminal Term.Plain true ["socket-1"]) "socket-2" "Pulling"
              eq_refl)
    as (_ & _ & _ & H & _).
  - apply NoDup_singleton.
  - exact H.
Defined.

Lemma exit_is_final_witness :
  Term.getTerminal "combined--web"
    (Term.exit 0 (JS.Num 0)
       (registered (logs_terminal Term.Plain true ["socket-1"])))
  = None.
Proof.
  destruct (exit_is_final host 0
              (registered (logs_terminal Term.Plain true ["socket-1"]))
              (logs_terminal Term.Plain true ["socket-1"]) (JS.Num 0) eq_refl)
    as (_ & _ & H & _).
  - apply NoDup_singleton.
  - exact H.
Defined.

Lemma keepAliveTick_closes_when_empty_witness :
  Term.input (Term.keepAliveTick 0 (registered (logs_terminal Term.Plain true [])))
  = [(0, String "003"%char EmptyString)].
Proof.
  destruct (keepAliveTick_closes_when_empty 0
              (registered (logs_terminal Term.Plain true []))
              (logs_terminal Term.Plain true []) eq_refl) as (H & _ & _).
  destruct H as (H & _ & _); [reflexivity | reflexivity | reflexivity |].
  exact H.
Defined.

Lemma combined_terminal_is_shared_witness :
  Term.viewers 0
    (Term.joinCombinedTerminal host "combined--web"
       ["compose"; "logs"; "-f"; "--tail"; "100"] "/opt/stacks/web" "socket-2"
       (Term.joinCombinedTerminal host "combined--web"
          ["compose"; "logs"; "-f"; "--tail"; "100"] "/opt/stacks/web" "socket-1"
          no_terminals))
  = ["socket-1"; "socket-2"].
Proof.
  destruct (combined_terminal_is_shared host "combined--web"
              ["compose"; "logs"; "-f"; "--tail"; "100"] "/opt/stacks/web"
              "socket-1" "socket-2" no_terminals eq_refl eq_refl)
    as (_ & _ & H & _).
  - discriminate.
  - exact H.
Defined.

Lemma attach_replaces_other_terminal_witness :
  Term.getTerminal "combined--web"
    (Term.exit 0 (JS.Num 0)
       (snd (Term.getOrCreateAttachTerminal host "combined--web" "app"
               "/opt/stacks/web" "ready"
               (registered (logs_terminal Term.Interactive true ["socket-1"])))))
  = None.
Proof.
  destruct (attach_replaces_other_terminal host "combined--web" "app"
              "/opt/stacks/web" "ready"
              (registered (logs_terminal Term.Interactive true ["socket-1"]))
              0 (logs_terminal Term.Interactive true ["socket-1"])
              eq_refl eq_refl eq_refl)
    as (_ & _ & _ & _ & _ & H).
  - discriminate.
  - reflexivity.
  - reflexivity.
  - destruct (H (JS.Num 0)) as [Hgone _]. exact Hgone.
Defined.

Lemma attach_reuses_attach_terminal_witness :
  Term.received "socket-1"
    (Term.emitted
       (snd (Term.getOrCreateAttachTerminal host "combined--web" "app"
               "/opt/stacks/web" "ready"
               (registered (logs_terminal Term.Attach true ["socket-1"])))))
  = [Term.terminalWrite "combined--web" "ready"].
Proof.
  destruct (attach_reuses_attach_terminal host "combined--web" "app"
              "/opt/stacks/web" "ready"
              (registered (logs_terminal Term.Attach true ["socket-1"]))
              0 (logs_terminal Term.Attach true ["socket-1"])
              eq_refl eq_refl eq_refl eq_refl)
    as (_ & _ & _ & _ & H).
  - apply NoDup_singleton.
  - exact (H "socket-1").
Defined.

Lemma kickTick_removes_disconnected_witness :
  Term.viewers 0
    (Term.kickTick (String.eqb "socket-2") 0
       (registered (logs_terminal Term.Plain true ["socket-1"; "socket-2"])))
  = ["socket-2"].
Proof.
  destruct (kickTick_removes_disconnected (String.eqb "socket-2") 0
              (registered (logs_terminal Term.Plain true ["socket-1"; "socket-2"]))
              (logs_terminal Term.Plain true ["socket-1"; "socket-2"])
              eq_refl eq_refl) as (H & _).
  exact H.
Defined.
